(** * CheckBeer: the JNI helper layer and the signature-bypass probes

    A shallow embedding of [src/include/JNIHelper.hpp] and
    [src/include/SignatureCheck.hpp].

    The C++ code talks to three things it does not own: the managed
    runtime behind [JNIEnv*], the C library ([stat], [chmod]) and the
    Android log.  The first two are function tables taken as parameters
    ([JNIEnv], [Libc]); the log is a list of entries.  C++ code is
    written in a state-and-exception monad [M] over a [World] holding
    the runtime's state, its pending-exception slot, the file system
    and the log.

    What is taken from outside the repository: the pending-exception
    slot behaves as the JNI specification says ([ExceptionCheck],
    [ExceptionOccurred], [ExceptionClear]; [ExceptionDescribe] may or
    may not clear it);
    [DeleteLocalRef] and [ReleaseStringUTFChars] raise nothing; a JNI
    entry works on the runtime's state and a libc call on the file
    system; a failed [chmod] changes nothing.  Not modelled: a process
    abort inside the runtime, and memory exhaustion in [std::string]
    and [std::vector]. *)

From Stdlib Require Import ZArith List String Ascii Bool Lia.
Import ListNotations.
Open Scope string_scope.
Open Scope Z_scope.

(* ================================================================== *)
(** ** Data of [jni.h] *)

(** Reference types are opaque handles; [nullptr] is the handle 0.
    [jclass], [jstring], [jthrowable] and [jobjectArray] are C++
    subtypes of [jobject], so a [static_cast] between them is the
    identity on the handle. *)
Definition jobject := Z.
Definition jclass := jobject.
Definition jstring := jobject.
Definition jthrowable := jobject.
Definition jobjectArray := jobject.
Definition nullptr : jobject := 0.

Definition is_null (o : jobject) : bool := o =? nullptr.

(** The return types the templates are instantiated at
    ([JNITypeTraits<T>] and the [if constexpr] chains). *)
Inductive jtype :=
| jvoid | jboolean | jbyte | jchar | jshort | jint | jlong
| jfloat | jdouble | jobject_t | jstring_t.

(** The C++ value of each of them.  Integers are [Z]; a floating-point
    value is carried as its IEEE bit pattern, the helpers only pass it
    on.  [jobject_t] stands for [jobject] and every other reference
    type but [jstring], which has traits of its own. *)
Definition cpp (ty : jtype) : Type :=
  match ty with
  | jvoid => unit
  | _ => Z
  end.

(** JNI has one family of entries per primitive type and one for all
    references: [jstring] results come from the [Object] entries. *)
Definition slot (ty : jtype) : jtype :=
  match ty with
  | jstring_t => jobject_t
  | t => t
  end.

(** [static_cast<T>] of what the entry of [slot T] returned. *)
Definition static_cast (ty : jtype) : cpp (slot ty) -> cpp ty :=
  match ty return cpp (slot ty) -> cpp ty with
  | jvoid => fun v => v
  | jboolean => fun v => v
  | jbyte => fun v => v
  | jchar => fun v => v
  | jshort => fun v => v
  | jint => fun v => v
  | jlong => fun v => v
  | jfloat => fun v => v
  | jdouble => fun v => v
  | jobject_t => fun v => v
  | jstring_t => fun v => v
  end.

(** [static_cast<T>(jobject)], well-formed in C++ for the reference
    types (and [void]). *)
Definition from_jobject (ty : jtype) (o : jobject) : cpp ty :=
  match ty return cpp ty with
  | jvoid => tt
  | _ => o
  end.

(** [union jvalue]: one constructor per member. *)
Inductive jvalue :=
| jv_z (v : Z) | jv_b (v : Z) | jv_c (v : Z) | jv_s (v : Z) | jv_i (v : Z)
| jv_j (v : Z) | jv_f (v : Z) | jv_d (v : Z) | jv_l (v : jobject).

(** What one entry of the JNI function table answers: the returned
    value, the exception the call raised (if any) and the runtime's new
    state. *)
Definition Reply (H A : Type) : Type := (A * option jthrowable * H)%type.

(** The entries of [JNIEnv] the repository calls.  [H] is the state of
    the managed runtime, [MID] and [FID] are the opaque [jmethodID] and
    [jfieldID].  The entries are typed as the JNI specification has
    them: [DeleteLocalRef] and [ReleaseStringUTFChars] raise nothing.
    A call the JNI specification leaves undefined (a null receiver)
    answers whatever the table says. *)
Record JNIEnv (H MID FID : Type) : Type := {
  env_FindClass : string -> H -> Reply H jclass;
  env_GetObjectClass : jobject -> H -> Reply H jclass;
  env_GetMethodID : jclass -> string -> string -> H -> Reply H MID;
  env_GetStaticMethodID : jclass -> string -> string -> H -> Reply H MID;
  env_GetFieldID : jclass -> string -> string -> H -> Reply H FID;
  env_GetStaticFieldID : jclass -> string -> string -> H -> Reply H FID;
  (* Get<Type>Field, GetStatic<Type>Field *)
  env_GetField : forall ty, jobject -> FID -> H -> Reply H (cpp ty);
  env_GetStaticField : forall ty, jclass -> FID -> H -> Reply H (cpp ty);
  (* Call<Type>Method(obj, mid) with no variadic argument *)
  env_CallMethod : forall ty, jobject -> MID -> H -> Reply H (cpp ty);
  env_CallStaticMethod : forall ty, jclass -> MID -> H -> Reply H (cpp ty);
  (* Call<Type>MethodA(obj, mid, args) *)
  env_CallMethodA :
    forall ty, jobject -> MID -> list jvalue -> H -> Reply H (cpp ty);
  env_CallStaticMethodA :
    forall ty, jclass -> MID -> list jvalue -> H -> Reply H (cpp ty);
  env_NewObjectA : jclass -> MID -> list jvalue -> H -> Reply H jobject;
  env_NewStringUTF : string -> H -> Reply H jstring;
  (* NULL when the characters cannot be obtained *)
  env_GetStringUTFChars : jstring -> H -> Reply H (option string);
  env_ReleaseStringUTFChars : jstring -> string -> H -> H;
  env_DeleteLocalRef : jobject -> H -> H;
  env_GetArrayLength : jobjectArray -> H -> Reply H Z;
  env_GetObjectArrayElement : jobjectArray -> Z -> H -> Reply H jobject;
  (* whether ExceptionDescribe clears the exception it prints: the JNI
     specification says it does, the Android runtime restores it *)
  env_ExceptionDescribe_clears : bool
}.

Arguments env_FindClass {H MID FID}.
Arguments env_GetObjectClass {H MID FID}.
Arguments env_GetMethodID {H MID FID}.
Arguments env_GetStaticMethodID {H MID FID}.
Arguments env_GetFieldID {H MID FID}.
Arguments env_GetStaticFieldID {H MID FID}.
Arguments env_GetField {H MID FID}.
Arguments env_GetStaticField {H MID FID}.
Arguments env_CallMethod {H MID FID}.
Arguments env_CallStaticMethod {H MID FID}.
Arguments env_CallMethodA {H MID FID}.
Arguments env_CallStaticMethodA {H MID FID}.
Arguments env_NewObjectA {H MID FID}.
Arguments env_NewStringUTF {H MID FID}.
Arguments env_GetStringUTFChars {H MID FID}.
Arguments env_ReleaseStringUTFChars {H MID FID}.
Arguments env_DeleteLocalRef {H MID FID}.
Arguments env_GetArrayLength {H MID FID}.
Arguments env_GetObjectArrayElement {H MID FID}.
Arguments env_ExceptionDescribe_clears {H MID FID}.

(* ================================================================== *)
(** ** Data of [sys/stat.h] and the Android log *)

(** The two fields of [struct stat] the code reads. *)
Record struct_stat : Type := { st_mode : Z; st_uid : Z }.

(** [stat] fills a [struct stat] and returns 0, or returns -1 and sets
    [errno] ([inr]).  [chmod] returns 0 and changes the file system, or
    returns -1 and changes nothing ([None]). *)
Record Libc (FS : Type) : Type := {
  libc_stat : string -> FS -> struct_stat + Z;
  libc_chmod : string -> Z -> FS -> option FS
}.

Arguments libc_stat {FS}.
Arguments libc_chmod {FS}.

Inductive android_LogPriority := ANDROID_LOG_INFO | ANDROID_LOG_ERROR.

(** An argument of the printf-style log call. *)
Inductive LogArg := arg_s (s : string) | arg_d (n : Z) | arg_o (n : Z).

(** One [__android_log_print(prio, tag, fmt, ...)] call. *)
Record LogEntry : Type := {
  log_prio : android_LogPriority;
  log_tag : string;
  log_fmt : string;
  log_args : list LogArg
}.

(* ================================================================== *)
(** ** [std::string] operations used by the probes *)

Definition npos : Z := 2 ^ 64 - 1.

(** [s.find(pat)]: position of the first occurrence, or [npos]. *)
Definition string_find (s pat : string) : Z :=
  match String.index 0 pat s with
  | Some n => Z.of_nat n
  | None => npos
  end.

(** [s.length()] *)
Definition string_length (s : string) : Z := Z.of_nat (String.length s).

(** [s.substr(pos)] for [pos <= s.length()]. *)
Definition string_substr (s : string) (pos : Z) : string :=
  String.substring (Z.to_nat pos) (String.length s - Z.to_nat pos) s.

(** An octal literal of three digits, as in [0644]. *)
Definition octal (d2 d1 d0 : Z) : Z := d2 * 64 + d1 * 8 + d0.

(** The line feed of the ["\n"] literal. *)
Definition LF : string := String (ascii_of_nat 10) EmptyString.

(* ================================================================== *)
(** ** The world and the monad of C++ code *)

(** [pending] is the runtime's pending-exception slot, read and reset
    by [ExceptionCheck], [ExceptionOccurred], [ExceptionDescribe] and
    [ExceptionClear]. *)
Record World (H FS : Type) : Type := mkWorld {
  vm : H;
  pending : option jthrowable;
  fs : FS;
  logcat : list LogEntry
}.

Arguments mkWorld {H FS}.
Arguments vm {H FS}.
Arguments pending {H FS}.
Arguments fs {H FS}.
Arguments logcat {H FS}.

(** [jni::JNIException], a [std::runtime_error]: the message of
    [what()] and the captured throwable.  It is the only exception type
    the repository throws. *)
Record JNIException : Type := mkJNIException {
  what : string;
  getJavaException : jthrowable
}.

(** A C++ call returns normally or leaves by an exception. *)
Inductive outcome (W A : Type) : Type :=
| Ret (a : A) (w : W)
| Throw (e : JNIException) (w : W).

Arguments Ret {W A}.
Arguments Throw {W A}.

Definition world_of {W A} (o : outcome W A) : W :=
  match o with
  | Ret _ w => w
  | Throw _ w => w
  end.

Definition M (W A : Type) : Type := W -> outcome W A.

Definition ret {W A} (a : A) : M W A := fun w => Ret a w.

Definition bind {W A B} (m : M W A) (k : A -> M W B) : M W B :=
  fun w =>
    match m w with
    | Ret a w' => k a w'
    | Throw e w' => Throw e w'
    end.

Definition throw {W A} (e : JNIException) : M W A := fun w => Throw e w.

(** [try { body } catch (const std::exception& e) { handler }] *)
Definition try_catch {W A} (body : M W A) (handler : JNIException -> M W A)
  : M W A :=
  fun w =>
    match body w with
    | Ret a w' => Ret a w'
    | Throw e w' => handler e w'
    end.

Declare Scope cpp_scope.
Delimit Scope cpp_scope with cpp.
Notation "x <- m ;; k" := (bind m (fun x => k))
  (at level 61, m at next level, right associativity) : cpp_scope.
Notation "' pat <- m ;; k" := (bind m (fun x => match x with pat => k end))
  (at level 61, pat pattern, m at next level, right associativity) : cpp_scope.
Notation "m ;; k" := (bind m (fun _ => k))
  (at level 61, right associativity) : cpp_scope.
Open Scope cpp_scope.

(* ================================================================== *)
(** ** [JNIHelper.hpp]: namespace [jni] *)

Section JNIHelper.
Context {H MID FID FS : Type}.
Variable env : JNIEnv H MID FID.

Local Abbreviation W := (World H FS).

(** A call through [env->] of an entry that may raise: the runtime
    state is replaced and a raised exception becomes the pending
    one. *)
Definition jni {A} (call : H -> Reply H A) : M W A := fun w =>
  let '(a, raised, h) := call (vm w) in
  Ret a {| vm := h;
           pending := match raised with
                      | Some t => Some t
                      | None => pending w
                      end;
           fs := fs w;
           logcat := logcat w |}.

(** A call through [env->] of an entry that raises nothing. *)
Definition jni_ (call : H -> H) : M W unit := fun w =>
  Ret tt {| vm := call (vm w); pending := pending w;
            fs := fs w; logcat := logcat w |}.

Definition ExceptionCheck : M W bool := fun w =>
  Ret (match pending w with Some _ => true | None => false end) w.

Definition ExceptionOccurred : M W jthrowable := fun w =>
  Ret (match pending w with Some t => t | None => nullptr end) w.

Definition clear_pending (w : W) : W :=
  {| vm := vm w; pending := None; fs := fs w; logcat := logcat w |}.

(** Prints the exception to the runtime's error channel, which the
    world does not record; whether the exception stays pending is the
    runtime's choice. *)
Definition ExceptionDescribe : M W unit := fun w =>
  Ret tt (if env_ExceptionDescribe_clears env then clear_pending w else w).

Definition ExceptionClear : M W unit := fun w => Ret tt (clear_pending w).

(** [JNI_CHECK_EXCEPTION(env)] *)
Definition JNI_CHECK_EXCEPTION : M W unit :=
  b <- ExceptionCheck;;
  if (b : bool) then
    exception <- ExceptionOccurred;;
    ExceptionDescribe;;
    ExceptionClear;;
    throw (mkJNIException "JNI exception occurred" exception)
  else ret tt.

(** [ScopedLocalRef<T> r(env, ref);] followed by the rest of the
    enclosing block: the destructor runs when the block is left,
    normally or by an exception. *)
Definition ScopedLocalRef_dtor (ref : jobject) : M W unit :=
  if is_null ref then ret tt else jni_ (env_DeleteLocalRef env ref).

Definition ScopedLocalRef {A} (ref : jobject) (scope : M W A) : M W A :=
  fun w =>
    match scope w with
    | Ret a w' => (ScopedLocalRef_dtor ref;; ret a) w'
    | Throw e w' => (ScopedLocalRef_dtor ref;; throw e) w'
    end.

Definition JStringToString (jstr : jstring) : M W string :=
  if is_null jstr then ret "" else
  chars <- jni (env_GetStringUTFChars env jstr);;
  match chars with
  | None => ret ""
  | Some chars =>
      let result := chars in
      jni_ (env_ReleaseStringUTFChars env jstr chars);;
      ret result
  end.

Definition StringToJString (str : string) : M W jstring :=
  jni (env_NewStringUTF env str).

Definition FindClass (className : string) : M W jclass :=
  cls <- jni (env_FindClass env className);;
  JNI_CHECK_EXCEPTION;;
  ret cls.

Definition GetMethodID (cls : jclass) (methodName signature : string)
  : M W MID :=
  mid <- jni (env_GetMethodID env cls methodName signature);;
  JNI_CHECK_EXCEPTION;;
  ret mid.

Definition GetStaticMethodID (cls : jclass) (methodName signature : string)
  : M W MID :=
  mid <- jni (env_GetStaticMethodID env cls methodName signature);;
  JNI_CHECK_EXCEPTION;;
  ret mid.

Definition GetFieldID (cls : jclass) (fieldName signature : string)
  : M W FID :=
  fid <- jni (env_GetFieldID env cls fieldName signature);;
  JNI_CHECK_EXCEPTION;;
  ret fid.

Definition GetStaticFieldID (cls : jclass) (fieldName signature : string)
  : M W FID :=
  fid <- jni (env_GetStaticFieldID env cls fieldName signature);;
  JNI_CHECK_EXCEPTION;;
  ret fid.

(** [JNITypeTraits<T>], all specialisations at once.  [void] has no
    field accessors in the source. *)
Definition JNITypeTraits_signature (ty : jtype) : string :=
  match ty with
  | jobject_t => "Ljava/lang/Object;"
  | jstring_t => "Ljava/lang/String;"
  | jvoid => "V"
  | jboolean => "Z"
  | jbyte => "B"
  | jchar => "C"
  | jshort => "S"
  | jint => "I"
  | jlong => "J"
  | jfloat => "F"
  | jdouble => "D"
  end.

Definition JNITypeTraits_GetField (ty : jtype) (obj : jobject) (fid : FID)
  : M W (cpp ty) :=
  result <- jni (env_GetField env (slot ty) obj fid);;
  JNI_CHECK_EXCEPTION;;
  ret (static_cast ty result).

Definition JNITypeTraits_GetStaticField (ty : jtype) (cls : jclass)
  (fid : FID) : M W (cpp ty) :=
  result <- jni (env_GetStaticField env (slot ty) cls fid);;
  JNI_CHECK_EXCEPTION;;
  ret (static_cast ty result).

Definition JNITypeTraits_CallMethod (ty : jtype) (obj : jobject) (mid : MID)
  (args : list jvalue) : M W (cpp ty) :=
  result <- jni (env_CallMethodA env (slot ty) obj mid args);;
  JNI_CHECK_EXCEPTION;;
  ret (static_cast ty result).

Definition JNITypeTraits_CallStaticMethod (ty : jtype) (cls : jclass)
  (mid : MID) (args : list jvalue) : M W (cpp ty) :=
  result <- jni (env_CallStaticMethodA env (slot ty) cls mid args);;
  JNI_CHECK_EXCEPTION;;
  ret (static_cast ty result).

(** One element of the parameter pack [Args...], by the [setJValue]
    overload it selects. *)
Inductive Arg :=
| a_jboolean (value : Z) | a_jbyte (value : Z) | a_jchar (value : Z)
| a_jshort (value : Z) | a_jint (value : Z) | a_jlong (value : Z)
| a_jfloat (value : Z) | a_jdouble (value : Z)
| a_nullptr
| a_jobject (value : jobject)          (* jobject and the other references *)
| a_string (value : string)            (* const std::string& *)
| a_cstr (value : option string).      (* const char*, None when null *)

Definition setJValue (value : Arg) : M W jvalue :=
  match value with
  | a_jboolean v => ret (jv_z v)
  | a_jbyte v => ret (jv_b v)
  | a_jchar v => ret (jv_c v)
  | a_jshort v => ret (jv_s v)
  | a_jint v => ret (jv_i v)
  | a_jlong v => ret (jv_j v)
  | a_jfloat v => ret (jv_f v)
  | a_jdouble v => ret (jv_d v)
  | a_nullptr => ret (jv_l nullptr)
  | a_jobject v => ret (jv_l v)
  | a_string v => jstr <- StringToJString v;; ret (jv_l jstr)
  | a_cstr None => ret (jv_l nullptr)
  | a_cstr (Some v) => jstr <- jni (env_NewStringUTF env v);; ret (jv_l jstr)
  end.

(** [ArgsToJValues<Args...> jvalues(env, args...)]: [convertArgs]
    fills the array from index 0 on. *)
Fixpoint ArgsToJValues (args : list Arg) : M W (list jvalue) :=
  match args with
  | [] => ret []
  | value :: rest =>
      v <- setJValue value;;
      vs <- ArgsToJValues rest;;
      ret (v :: vs)
  end.

Definition CallMethod (ty : jtype) (obj : jobject)
  (methodName signature : string) (args : list Arg) : M W (cpp ty) :=
  cls <- jni (env_GetObjectClass env obj);;
  ScopedLocalRef cls (
    mid <- GetMethodID cls methodName signature;;
    match args with
    | [] =>
        result <- jni (env_CallMethod env (slot ty) obj mid);;
        JNI_CHECK_EXCEPTION;;
        ret (static_cast ty result)
    | _ =>
        jvalues <- ArgsToJValues args;;
        JNITypeTraits_CallMethod ty obj mid jvalues
    end).

Definition CallStaticMethod (ty : jtype) (className : string)
  (methodName signature : string) (args : list Arg) : M W (cpp ty) :=
  cls <- FindClass className;;
  ScopedLocalRef cls (
    mid <- GetStaticMethodID cls methodName signature;;
    match args with
    | [] =>
        result <- jni (env_CallStaticMethod env (slot ty) cls mid);;
        JNI_CHECK_EXCEPTION;;
        ret (static_cast ty result)
    | _ =>
        jvalues <- ArgsToJValues args;;
        JNITypeTraits_CallStaticMethod ty cls mid jvalues
    end).

Definition NewObject (className constructorSignature : string)
  (args : list Arg) : M W jobject :=
  cls <- FindClass className;;
  ScopedLocalRef cls (
    constructor <- GetMethodID cls "<init>" constructorSignature;;
    jvalues <- ArgsToJValues args;;
    obj <- jni (env_NewObjectA env cls constructor jvalues);;
    JNI_CHECK_EXCEPTION;;
    ret obj).

(** [signature] is [None] for the default argument [nullptr]. *)
Definition GetField (ty : jtype) (obj : jobject) (fieldName : string)
  (signature : option string) : M W (cpp ty) :=
  cls <- jni (env_GetObjectClass env obj);;
  ScopedLocalRef cls (
    let fieldSig := match signature with
                    | Some s => s
                    | None => JNITypeTraits_signature ty
                    end in
    fid <- GetFieldID cls fieldName fieldSig;;
    match signature with
    | Some _ =>
        o <- JNITypeTraits_GetField jobject_t obj fid;;
        ret (from_jobject ty o)
    | None => JNITypeTraits_GetField ty obj fid
    end).

Definition GetStaticField (ty : jtype) (className fieldName : string)
  (signature : option string) : M W (cpp ty) :=
  cls <- FindClass className;;
  ScopedLocalRef cls (
    let fieldSig := match signature with
                    | Some s => s
                    | None => JNITypeTraits_signature ty
                    end in
    fid <- GetStaticFieldID cls fieldName fieldSig;;
    match signature with
    | Some _ =>
        o <- JNITypeTraits_GetStaticField jobject_t cls fid;;
        ret (from_jobject ty o)
    | None => JNITypeTraits_GetStaticField ty cls fid
    end).

End JNIHelper.

(* ================================================================== *)
(** ** [SignatureCheck.hpp] *)

Section SignatureCheck.
Context {H MID FID FS : Type}.
Variable env : JNIEnv H MID FID.
Variable libc : Libc FS.

Local Abbreviation W := (World H FS).

Definition LOG_TAG : string := "CheckBeer".

Definition android_log_print (prio : android_LogPriority) (tag fmt : string)
  (args : list LogArg) : M W unit := fun w =>
  Ret tt {| vm := vm w; pending := pending w; fs := fs w;
            logcat := logcat w ++ [ {| log_prio := prio; log_tag := tag;
                                       log_fmt := fmt; log_args := args |} ] |}.

Definition LOGI (fmt : string) (args : list LogArg) : M W unit :=
  android_log_print ANDROID_LOG_INFO LOG_TAG fmt args.

Definition LOGE (fmt : string) (args : list LogArg) : M W unit :=
  android_log_print ANDROID_LOG_ERROR LOG_TAG fmt args.

(** [stat(path, &st)]: the filled [struct stat], or [errno]. *)
Definition stat (path : string) : M W (struct_stat + Z) := fun w =>
  Ret (libc_stat libc path (fs w)) w.

(** [chmod(path, mode)]: the return code. *)
Definition chmod (path : string) (mode : Z) : M W Z := fun w =>
  match libc_chmod libc path mode (fs w) with
  | Some fs' => Ret 0 {| vm := vm w; pending := pending w; fs := fs';
                         logcat := logcat w |}
  | None => Ret (-1) w
  end.

(** *** checkCreator *)

Definition checkCreator_try (expectedCreatorName : string) (suspicious : bool)
  : M W bool :=
  creatorObject <- GetStaticField env jobject_t "android/content/pm/PackageInfo"
                     "CREATOR" (Some "Landroid/os/Parcelable$Creator;");;
  creatorClass <- CallMethod env jobject_t creatorObject
                    "getClass" "()Ljava/lang/Class;" [];;
  jCreatorName <- CallMethod env jstring_t creatorClass
                    "getName" "()Ljava/lang/String;" [];;
  currentCreatorName <- JStringToString env jCreatorName;;
  LOGI "Current Creator Name: %s" [arg_s currentCreatorName];;
  suspicious <-
    (if negb (string_find currentCreatorName "android.content.pm.PackageInfo$"
              =? 0)
     then LOGE "Current Creator Name does not start with expected prefix" [];;
          ret true
     else ret suspicious);;
  suspicious <-
    (if negb (expectedCreatorName =? currentCreatorName)%string
     then LOGE "Creator name mismatch: expected=%s, found=%s"
            [arg_s expectedCreatorName; arg_s currentCreatorName];;
          ret true
     else LOGI "Creator name verification passed" [];;
          ret suspicious);;
  ret suspicious.

Definition checkCreator : M W bool :=
  let suspicious := false in
  let expectedCreatorName := "android.content.pm.PackageInfo$1" in
  LOGI "Expected Creator Name: %s" [arg_s expectedCreatorName];;
  suspicious <-
    try_catch (checkCreator_try expectedCreatorName suspicious)
      (fun e => LOGE "Error while checking creator: %s" [arg_s (what e)];;
                ret true);;
  LOGE LF [];;
  ret suspicious.

(** *** checkField *)

(** The [for] loop over the declared fields, [n] iterations from
    index [i]. *)
Fixpoint checkField_loop (fieldArray : jobjectArray) (i : Z) (n : nat)
  : M W unit :=
  match n with
  | O => ret tt
  | S n' =>
      field <- jni (env_GetObjectArrayElement env fieldArray i);;
      ScopedLocalRef env field (
        fieldName <- CallMethod env jstring_t field
                       "getName" "()Ljava/lang/String;" [];;
        fieldNameStr <- JStringToString env fieldName;;
        LOGE "Declared Field Name: %s" [arg_s fieldNameStr]);;
      checkField_loop fieldArray (i + 1) n'
  end.

Definition checkField_try (suspicious : bool) : M W bool :=
  creatorObject <- GetStaticField env jobject_t "android/content/pm/PackageInfo"
                     "CREATOR" (Some "Landroid/os/Parcelable$Creator;");;
  creatorClass <- CallMethod env jobject_t creatorObject
                    "getClass" "()Ljava/lang/Class;" [];;
  fieldArray <- CallMethod env jobject_t creatorClass
                  "getDeclaredFields" "()[Ljava/lang/reflect/Field;" [];;
  fieldCount <- jni (env_GetArrayLength env fieldArray);;
  LOGI "Expected Declared field count: 0, found: %d" [arg_d fieldCount];;
  if fieldCount >? 0 then
    let suspicious := true in
    LOGE "Found %d unexpected fields in CREATOR object" [arg_d fieldCount];;
    checkField_loop fieldArray 0 (Z.to_nat fieldCount);;
    ret suspicious
  else
    LOGI "No suspicious fields found" [];;
    ret suspicious.

Definition checkField : M W bool :=
  let suspicious := false in
  suspicious <-
    try_catch (checkField_try suspicious)
      (fun e => LOGE "Error while checking fields: %s" [arg_s (what e)];;
                ret true);;
  LOGE LF [];;
  ret suspicious.

(** *** checkCreators *)

Definition checkCreators_try (suspicious : bool) : M W bool :=
  creator <- GetStaticField env jobject_t "android/content/pm/PackageInfo"
               "CREATOR" (Some "Landroid/os/Parcelable$Creator;");;
  jCreatorString <- CallMethod env jstring_t creator
                      "toString" "()Ljava/lang/String;" [];;
  creatorString <- JStringToString env jCreatorString;;
  suspicious <-
    (if negb (creatorString =? "")%string then
       if negb (string_find creatorString "android.content.pm.PackageInfo$"
                =? 0)
       then LOGE "Creator object is suspicious: %s" [arg_s creatorString];;
            ret true
       else LOGI "Creator object is correct: %s" [arg_s creatorString];;
            ret suspicious
     else ret suspicious);;
  creatorClass <- CallMethod env jobject_t creator
                    "getClass" "()Ljava/lang/Class;" [];;
  creatorClassloader <- CallMethod env jobject_t creatorClass
                          "getClassLoader" "()Ljava/lang/ClassLoader;" [];;
  sysClassloader <- CallStaticMethod env jobject_t "java/lang/ClassLoader"
                      "getSystemClassLoader" "()Ljava/lang/ClassLoader;" [];;
  creatorClassloaderClass <- CallMethod env jobject_t creatorClassloader
                               "getClass" "()Ljava/lang/Class;" [];;
  sysClassloaderClass <- CallMethod env jobject_t sysClassloader
                           "getClass" "()Ljava/lang/Class;" [];;
  jCreatorClassloaderName <- CallMethod env jstring_t creatorClassloaderClass
                               "getName" "()Ljava/lang/String;" [];;
  jSysClassloaderName <- CallMethod env jstring_t sysClassloaderClass
                           "getName" "()Ljava/lang/String;" [];;
  creatorClassloaderName <- JStringToString env jCreatorClassloaderName;;
  sysClassloaderName <- JStringToString env jSysClassloaderName;;
  LOGI "Creator ClassLoader: %s" [arg_s creatorClassloaderName];;
  LOGI "System ClassLoader: %s" [arg_s sysClassloaderName];;
  if is_null creatorClassloader || is_null sysClassloader then
    LOGE "One of the class loaders is null" [];;
    ret true
  else if (sysClassloaderName =? creatorClassloaderName)%string then
    LOGE "Class loaders are same - suspicious" [];;
    ret true
  else
    LOGI "Class loaders are different - good" [];;
    ret suspicious.

Definition checkCreators : M W bool :=
  let suspicious := false in
  suspicious <-
    try_catch (checkCreators_try suspicious)
      (fun e => LOGE "Error while checking creator3: %s" [arg_s (what e)];;
                ret true);;
  LOGE LF [];;
  ret suspicious.

(** *** checkPMProxy *)

Definition checkPMProxy_try (context : jobject) (expectedPMName : string)
  (suspicious : bool) : M W bool :=
  packageManager <- CallMethod env jobject_t context "getPackageManager"
                      "()Landroid/content/pm/PackageManager;" [];;
  packageManagerClass <- CallMethod env jobject_t packageManager
                           "getClass" "()Ljava/lang/Class;" [];;
  fieldNameStr <- jni (env_NewStringUTF env "mPM");;
  mPMField <- CallMethod env jobject_t packageManagerClass "getDeclaredField"
                "(Ljava/lang/String;)Ljava/lang/reflect/Field;"
                [a_jobject fieldNameStr];;
  (* JNI_TRUE is the int literal 1 *)
  CallMethod env jvoid mPMField "setAccessible" "(Z)V" [a_jint 1];;
  mPM <- CallMethod env jobject_t mPMField "get"
           "(Ljava/lang/Object;)Ljava/lang/Object;" [a_jobject packageManager];;
  mPMClass <- CallMethod env jobject_t mPM "getClass" "()Ljava/lang/Class;" [];;
  jPMName <- CallMethod env jstring_t mPMClass
               "getName" "()Ljava/lang/String;" [];;
  currentPMName <- JStringToString env jPMName;;
  LOGI "Current PM Name: %s" [arg_s currentPMName];;
  jni_ (env_DeleteLocalRef env fieldNameStr);;
  if negb (expectedPMName =? currentPMName)%string then
    LOGE "PM Name mismatch: expected=%s, found=%s"
      [arg_s expectedPMName; arg_s currentPMName];;
    ret true
  else
    LOGI "PM Name verification passed" [];;
    ret suspicious.

Definition checkPMProxy (context : jobject) : M W bool :=
  let suspicious := false in
  let expectedPMName := "android.content.pm.IPackageManager$Stub$Proxy" in
  LOGI "Expected PM Name: %s" [arg_s expectedPMName];;
  suspicious <-
    try_catch (checkPMProxy_try context expectedPMName suspicious)
      (fun e => LOGE "Error while checking PM proxy: %s" [arg_s (what e)];;
                ret true);;
  LOGE LF [];;
  ret suspicious.

(** *** getApplication, checkAppComponentFactory *)

Definition getApplication_try : M W jobject :=
  activityThread <- CallStaticMethod env jobject_t "android/app/ActivityThread"
                      "currentActivityThread" "()Landroid/app/ActivityThread;"
                      [];;
  GetField env jobject_t activityThread "mInitialApplication"
    (Some "Landroid/app/Application;").

Definition getApplication : M W jobject :=
  try_catch getApplication_try
    (fun e => LOGE "Error getting application: %s" [arg_s (what e)];;
              ret nullptr).

Definition getAppComponentFactory (context : jobject) : M W string :=
  r <- try_catch
         (packageManager <- CallMethod env jobject_t context "getPackageManager"
                              "()Landroid/content/pm/PackageManager;" [];;
          packageName <- CallMethod env jstring_t context "getPackageName"
                           "()Ljava/lang/String;" [];;
          applicationInfo <- CallMethod env jobject_t packageManager
                               "getApplicationInfo"
                               "(Ljava/lang/String;I)Landroid/content/pm/ApplicationInfo;"
                               [a_jobject packageName; a_jint 0];;
          appComponentFactory <- GetField env jstring_t applicationInfo
                                   "appComponentFactory"
                                   (Some "Ljava/lang/String;");;
          if negb (is_null appComponentFactory) then
            s <- JStringToString env appComponentFactory;;
            ret (Some s)
          else ret None)
         (fun e => LOGE "Error getting AppComponentFactory: %s"
                     [arg_s (what e)];;
                   ret None);;
  match r with
  | Some s => ret s
  | None => ret ""
  end.

Definition checkAppComponentFactory_try (originalAppComponentFactory : string)
  (suspicious : bool) : M W bool :=
  application <- getApplication;;
  if negb (is_null application) then
    applicationInfo <- CallMethod env jobject_t application "getApplicationInfo"
                         "()Landroid/content/pm/ApplicationInfo;" [];;
    jAppComponentFactory <- GetField env jstring_t applicationInfo
                              "appComponentFactory" (Some "Ljava/lang/String;");;
    if negb (is_null jAppComponentFactory) then
      appComponentFactory <- JStringToString env jAppComponentFactory;;
      LOGI "Detected AppComponentFactory: %s" [arg_s appComponentFactory];;
      if negb (appComponentFactory =? originalAppComponentFactory)%string then
        LOGE "AppComponentFactory mismatch: expected=%s, found=%s"
          [arg_s originalAppComponentFactory; arg_s appComponentFactory];;
        ret true
      else
        LOGI "AppComponentFactory verification passed" [];;
        ret suspicious
    else
      LOGI "AppComponentFactory is null" [];;
      ret suspicious
  else ret suspicious.

Definition checkAppComponentFactory : M W bool :=
  let suspicious := false in
  let originalAppComponentFactory := "androidx.core.app.CoreComponentFactory" in
  LOGI "Expected AppComponentFactory: %s" [arg_s originalAppComponentFactory];;
  suspicious <-
    try_catch (checkAppComponentFactory_try originalAppComponentFactory
                 suspicious)
      (fun e => LOGE "Error while checking AppComponentFactory: %s"
                  [arg_s (what e)];;
                ret true);;
  LOGE LF [];;
  ret suspicious.

(** *** getApkPath, checkApkPaths *)

Definition getApkPath_try (context : jobject) : M W string :=
  applicationInfo <- CallMethod env jobject_t context "getApplicationInfo"
                       "()Landroid/content/pm/ApplicationInfo;" [];;
  jSourceDir <- GetField env jstring_t applicationInfo "sourceDir"
                  (Some "Ljava/lang/String;");;
  JStringToString env jSourceDir.

Definition getApkPath (context : jobject) : M W string :=
  try_catch (getApkPath_try context)
    (fun e => LOGE "Error getting APK path: %s" [arg_s (what e)];;
              ret "").

(** Lines 274-319: the paths are gathered into the vector [paths]. *)
Definition checkApkPaths_paths (context : jobject) : M W (list string) :=
  jResourcePath <- CallMethod env jstring_t context "getPackageResourcePath"
                     "()Ljava/lang/String;" [];;
  resourcePath <- JStringToString env jResourcePath;;
  jCodePath <- CallMethod env jstring_t context "getPackageCodePath"
                 "()Ljava/lang/String;" [];;
  codePath <- JStringToString env jCodePath;;
  applicationInfo <- CallMethod env jobject_t context "getApplicationInfo"
                       "()Landroid/content/pm/ApplicationInfo;" [];;
  jSourceDir <- GetField env jstring_t applicationInfo "sourceDir"
                  (Some "Ljava/lang/String;");;
  sourceDir <- JStringToString env jSourceDir;;
  jPublicSourceDir <- GetField env jstring_t applicationInfo "publicSourceDir"
                        (Some "Ljava/lang/String;");;
  publicSourceDir <- JStringToString env jPublicSourceDir;;
  packageManager <- CallMethod env jobject_t context "getPackageManager"
                      "()Landroid/content/pm/PackageManager;" [];;
  packageName <- CallMethod env jstring_t context "getPackageName"
                   "()Ljava/lang/String;" [];;
  applicationInfo2 <- CallMethod env jobject_t packageManager
                        "getApplicationInfo"
                        "(Ljava/lang/String;I)Landroid/content/pm/ApplicationInfo;"
                        [a_jobject packageName; a_jint 0];;
  jPackageInfoSourceDir <- GetField env jstring_t applicationInfo2 "sourceDir"
                             (Some "Ljava/lang/String;");;
  packageInfoSourceDir <- JStringToString env jPackageInfoSourceDir;;
  nativeApkPath <-
    try_catch
      (nativeApkPath <- getApkPath context;;
       LOGI "Native APK Path: %s" [arg_s nativeApkPath];;
       ret nativeApkPath)
      (fun e => LOGE "Failed to get native APK path: %s" [arg_s (what e)];;
                ret "");;
  LOGI "Package Resource Path: %s" [arg_s resourcePath];;
  LOGI "Package Code Path: %s" [arg_s codePath];;
  LOGI "ApplicationInfo SourceDir: %s" [arg_s sourceDir];;
  LOGI "ApplicationInfo publicSourceDir: %s" [arg_s publicSourceDir];;
  LOGI "PackageManager SourceDir: %s" [arg_s packageInfoSourceDir];;
  let paths := [resourcePath; codePath; sourceDir; publicSourceDir;
                packageInfoSourceDir] in
  let paths := if negb (nativeApkPath =? "")%string
               then (paths ++ [nativeApkPath])%list else paths in
  ret paths.

(** Lines 322-329: [for (i = 1; i < paths.size(); i++)] over the
    elements after the first, leaving at the first mismatch. *)
Fixpoint checkApkPaths_same (paths0 : string) (rest : list string)
  (allPathsSame suspicious : bool) : M W (bool * bool) :=
  match rest with
  | [] => ret (allPathsSame, suspicious)
  | path :: rest' =>
      if negb (path =? paths0)%string then
        LOGE "Path mismatch: %s != %s" [arg_s paths0; arg_s path];;
        ret (false, true)
      else checkApkPaths_same paths0 rest' allPathsSame suspicious
  end.

(** Lines 338-345. *)
Fixpoint checkApkPaths_start (paths : list string)
  (allStartWithDataApp suspicious : bool) : M W (bool * bool) :=
  match paths with
  | [] => ret (allStartWithDataApp, suspicious)
  | path :: rest =>
      if negb (string_find path "/data/app/" =? 0) then
        LOGE "Path doesn't start with /data/app/: %s" [arg_s path];;
        ret (false, true)
      else checkApkPaths_start rest allStartWithDataApp suspicious
  end.

(** Lines 354-361. *)
Fixpoint checkApkPaths_end (paths : list string)
  (allEndWithBaseApk suspicious : bool) : M W (bool * bool) :=
  match paths with
  | [] => ret (allEndWithBaseApk, suspicious)
  | path :: rest =>
      if (string_length path <? 9)
         || negb (string_substr path (string_length path - 9) =? "/base.apk")%string
      then
        LOGE "Path doesn't end with /base.apk: %s" [arg_s path];;
        ret (false, true)
      else checkApkPaths_end rest allEndWithBaseApk suspicious
  end.

(** Lines 370-398: the body of the last loop, for one path. *)
Definition checkApkPaths_stat_path (path : string) (suspicious : bool)
  : M W bool :=
  r <- stat path;;
  match r with
  | inl st =>
      let correctPermissions :=
        Z.land (st_mode st) (octal 7 7 7) =? octal 6 4 4 in
      let correctOwner := st_uid st =? 1000 in
      suspicious <-
        (if negb correctPermissions then
           LOGE "Path %s has incorrect permissions: %o (expected 644)"
             [arg_s path; arg_o (Z.land (st_mode st) (octal 7 7 7))];;
           ret true
         else ret suspicious);;
      suspicious <-
        (if negb correctOwner then
           LOGE "Path %s has incorrect owner: %d (expected 1000/system)"
             [arg_s path; arg_d (st_uid st)];;
           ret true
         else ret suspicious);;
      rc <- chmod path (octal 7 7 7);;
      let canChangePermissions := rc =? 0 in
      if canChangePermissions then
        LOGE "Path %s permissions could be changed - suspicious"
          [arg_s path];;
        chmod path (octal 6 4 4);;
        ret true
      else
        LOGI "Path %s permissions check passed" [arg_s path];;
        ret suspicious
  | inr errno =>
      LOGE "Error accessing path: %s (errno: %d)"
        [arg_s path; arg_d errno];;
      ret true
  end.

(** Lines 369-399. *)
Fixpoint checkApkPaths_stat (paths : list string) (suspicious : bool)
  : M W bool :=
  match paths with
  | [] => ret suspicious
  | path :: rest =>
      suspicious <- checkApkPaths_stat_path path suspicious;;
      checkApkPaths_stat rest suspicious
  end.

(** Lines 321-399: the checks on the gathered vector. *)
Definition checkApkPaths_checks (paths : list string) (suspicious : bool)
  : M W bool :=
  '(allPathsSame, suspicious) <-
    checkApkPaths_same (hd "" paths) (tl paths) true suspicious;;
  (if negb allPathsSame then LOGE "APK paths are inconsistent" []
   else LOGI "APK paths are consistent" []);;
  '(allStartWithDataApp, suspicious) <-
    checkApkPaths_start paths true suspicious;;
  (if negb allStartWithDataApp
   then LOGE "Not all APK paths start with /data/app/" []
   else LOGI "All APK paths start with /data/app/" []);;
  '(allEndWithBaseApk, suspicious) <-
    checkApkPaths_end paths true suspicious;;
  (if negb allEndWithBaseApk
   then LOGE "Not all APK paths end with /base.apk" []
   else LOGI "All APK paths end with /base.apk" []);;
  checkApkPaths_stat paths suspicious.

Definition checkApkPaths_try (context : jobject) (suspicious : bool)
  : M W bool :=
  paths <- checkApkPaths_paths context;;
  checkApkPaths_checks paths suspicious.

Definition checkApkPaths (context : jobject) : M W bool :=
  let suspicious := false in
  suspicious <-
    try_catch (checkApkPaths_try context suspicious)
      (fun e => LOGE "Error while checking APK paths: %s" [arg_s (what e)];;
                ret true);;
  LOGE LF [];;
  ret suspicious.

(** *** checkSignatureBypass *)

Definition checkSignatureBypass (context : jobject) : M W bool :=
  LOGI "Starting native signature checks" [];;
  LOGI "----------START-----------------" [];;
  let suspicious := false in
  r <- checkCreator;;
  let suspicious := suspicious || r in
  r <- checkField;;
  let suspicious := suspicious || r in
  r <- checkCreators;;
  let suspicious := suspicious || r in
  r <- checkPMProxy context;;
  let suspicious := suspicious || r in
  r <- checkAppComponentFactory;;
  let suspicious := suspicious || r in
  r <- checkApkPaths context;;
  let suspicious := suspicious || r in
  LOGE LF [];;
  LOGI "Native signature checks completed, suspicious: %d"
    [arg_d (if suspicious then 1 else 0)];;
  LOGI "---------------END-----------------" [];;
  ret suspicious.

End SignatureCheck.

(* ================================================================== *)
(** ** A simulated device

    A concrete [JNIEnv] and [Libc] to run the code on: managed objects
    are rows of tables, method and field IDs are the member names, an
    unknown class or member raises, and [chmod] is allowed to the
    owner of a file and to root. *)

Module Device.

Fixpoint assoc {K V : Type} (eqb : K -> K -> bool) (k : K) (l : list (K * V))
  : option V :=
  match l with
  | [] => None
  | (k', v) :: l' => if eqb k k' then Some v else assoc eqb k l'
  end.

Definition member_eqb (a b : Z * string) : bool :=
  (fst a =? fst b) && (snd a =? snd b)%string.

Record Heap : Type := {
  classes : list (string * jclass);
  class_of : list (jobject * jclass);
  statics : list ((jclass * string) * jobject);
  members : list ((jobject * string) * jobject);
  strings : list (jstring * string);
  arrays : list (jobjectArray * list jobject);
  next : jobject;
  pinned : list jstring;
  (* the reflection objects made accessible by setAccessible *)
  accessible : list jobject;
  (* how many more member calls succeed, when that is limited *)
  budget : option nat
}.

Definition NoClassDefFoundError : jthrowable := 9001.
Definition NoSuchMemberError : jthrowable := 9002.
Definition OutOfMemoryError : jthrowable := 9004.
Definition ArrayIndexOutOfBoundsException : jthrowable := 9003.

Definition answer {A} (h : Heap) (r : option A) (default : A)
  (t : jthrowable) : Reply Heap A :=
  match r with
  | Some a => (a, None, h)
  | None => (default, Some t, h)
  end.

Definition with_pinned (h : Heap) (p : list jstring) : Heap :=
  {| classes := classes h; class_of := class_of h; statics := statics h;
     members := members h; strings := strings h; arrays := arrays h;
     next := next h; pinned := p; accessible := accessible h;
     budget := budget h |}.

Definition with_accessible (h : Heap) (a : list jobject) : Heap :=
  {| classes := classes h; class_of := class_of h; statics := statics h;
     members := members h; strings := strings h; arrays := arrays h;
     next := next h; pinned := pinned h; accessible := a;
     budget := budget h |}.

Definition with_budget (h : Heap) (b : option nat) : Heap :=
  {| classes := classes h; class_of := class_of h; statics := statics h;
     members := members h; strings := strings h; arrays := arrays h;
     next := next h; pinned := pinned h; accessible := accessible h;
     budget := b |}.

(** One member call out of the budget; [None] when it is used up. *)
Definition spend (h : Heap) : option Heap :=
  match budget h with
  | None => Some h
  | Some O => None
  | Some (S n) => Some (with_budget h (Some n))
  end.

(** A field read or a method call on [o]; [setAccessible] marks the
    receiver. *)
Definition member (ty : jtype) (o : jobject) (name : string) (h : Heap)
  : Reply Heap (cpp ty) :=
  match spend h with
  | None => (from_jobject ty nullptr, Some OutOfMemoryError, h)
  | Some h1 =>
      match assoc member_eqb (o, name) (members h1) with
      | Some v =>
          (from_jobject ty v, None,
           if (name =? "setAccessible")%string
           then with_accessible h1 (o :: accessible h1) else h1)
      | None => (from_jobject ty nullptr, Some NoSuchMemberError, h1)
      end
  end.

Definition static_member (ty : jtype) (c : jclass) (name : string) (h : Heap)
  : Reply Heap (cpp ty) :=
  match spend h with
  | None => (from_jobject ty nullptr, Some OutOfMemoryError, h)
  | Some h1 =>
      match assoc member_eqb (c, name) (statics h1) with
      | Some v => (from_jobject ty v, None, h1)
      | None => (from_jobject ty nullptr, Some NoSuchMemberError, h1)
      end
  end.

Fixpoint remove_one (x : Z) (l : list Z) : list Z :=
  match l with
  | [] => []
  | y :: l' => if x =? y then l' else y :: remove_one x l'
  end.

Definition env : JNIEnv Heap string string := {|
  env_FindClass := fun name h =>
    answer h (assoc String.eqb name (classes h)) nullptr NoClassDefFoundError;
  env_GetObjectClass := fun o h =>
    (match assoc Z.eqb o (class_of h) with Some c => c | None => nullptr end,
     None, h);
  env_GetMethodID := fun _ name _ h => (name, None, h);
  env_GetStaticMethodID := fun _ name _ h => (name, None, h);
  env_GetFieldID := fun _ name _ h => (name, None, h);
  env_GetStaticFieldID := fun _ name _ h => (name, None, h);
  env_GetField := member;
  env_GetStaticField := static_member;
  env_CallMethod := member;
  env_CallStaticMethod := static_member;
  env_CallMethodA := fun ty o name _ => member ty o name;
  env_CallStaticMethodA := fun ty c name _ => static_member ty c name;
  env_NewObjectA := fun c _ _ h => (nullptr, Some NoSuchMemberError, h);
  env_NewStringUTF := fun s h =>
    (next h, None,
     {| classes := classes h; class_of := class_of h; statics := statics h;
        members := members h; strings := (next h, s) :: strings h;
        arrays := arrays h; next := next h + 1; pinned := pinned h;
        accessible := accessible h; budget := budget h |});
  env_GetStringUTFChars := fun s h =>
    match assoc Z.eqb s (strings h) with
    | Some chars => (Some chars, None, with_pinned h (s :: pinned h))
    | None => (None, None, h)
    end;
  env_ReleaseStringUTFChars := fun s _ h =>
    with_pinned h (remove_one s (pinned h));
  env_DeleteLocalRef := fun _ h => h;
  env_GetArrayLength := fun a h =>
    (match assoc Z.eqb a (arrays h) with
     | Some l => Z.of_nat (List.length l)
     | None => 0
     end, None, h);
  env_GetObjectArrayElement := fun a i h =>
    answer h
      (match assoc Z.eqb a (arrays h) with
       | Some l => if 0 <=? i then nth_error l (Z.to_nat i) else None
       | None => None
       end) nullptr ArrayIndexOutOfBoundsException;
  env_ExceptionDescribe_clears := false
|}.

(** Files by path, and the effective uid of the process. *)
Record Disk : Type := {
  euid : Z;
  files : list (string * struct_stat)
}.

Definition ENOENT : Z := 2.

Fixpoint set_mode (path : string) (mode : Z) (l : list (string * struct_stat))
  : list (string * struct_stat) :=
  match l with
  | [] => []
  | (p, st) :: l' =>
      if (p =? path)%string
      then (p, {| st_mode := Z.lor (Z.land (st_mode st) (Z.lnot 4095))
                                   (Z.land mode 4095);
                  st_uid := st_uid st |}) :: l'
      else (p, st) :: set_mode path mode l'
  end.

Definition libc : Libc Disk := {|
  libc_stat := fun path d =>
    match assoc String.eqb path (files d) with
    | Some st => inl st
    | None => inr ENOENT
    end;
  libc_chmod := fun path mode d =>
    match assoc String.eqb path (files d) with
    | Some st =>
        if (euid d =? 0) || (euid d =? st_uid st)
        then Some {| euid := euid d; files := set_mode path mode (files d) |}
        else None
    | None => None
    end
|}.

Definition apk : string := "/data/app/com.example.app-1/base.apk".

(** The [Context] handle passed to the probes. *)
Definition context : jobject := 1.

(** An untampered installation. *)
Definition genuine_heap : Heap := {|
  classes := [("android/content/pm/PackageInfo", 10);
              ("java/lang/ClassLoader", 11);
              ("android/app/ActivityThread", 12)];
  class_of := [];
  statics := [((10, "CREATOR"), 100);
              ((11, "getSystemClassLoader"), 110);
              ((12, "currentActivityThread"), 120)];
  members := [((100, "getClass"), 101);
              ((101, "getName"), 102);
              ((101, "getDeclaredFields"), 103);
              ((100, "toString"), 104);
              ((101, "getClassLoader"), 105);
              ((105, "getClass"), 106);
              ((106, "getName"), 107);
              ((110, "getClass"), 111);
              ((111, "getName"), 112);
              ((context, "getPackageManager"), 130);
              ((130, "getClass"), 131);
              ((131, "getDeclaredField"), 132);
              ((132, "setAccessible"), 0);
              ((132, "get"), 133);
              ((133, "getClass"), 134);
              ((134, "getName"), 135);
              ((120, "mInitialApplication"), 140);
              ((140, "getApplicationInfo"), 141);
              ((141, "appComponentFactory"), 142);
              ((context, "getPackageResourcePath"), 150);
              ((context, "getPackageCodePath"), 150);
              ((context, "getApplicationInfo"), 141);
              ((141, "sourceDir"), 150);
              ((141, "publicSourceDir"), 150);
              ((context, "getPackageName"), 151);
              ((130, "getApplicationInfo"), 141)];
  strings := [(102, "android.content.pm.PackageInfo$1");
              (104, "android.content.pm.PackageInfo$1@3f2a1c");
              (107, "java.lang.BootClassLoader");
              (112, "dalvik.system.PathClassLoader");
              (135, "android.content.pm.IPackageManager$Stub$Proxy");
              (142, "androidx.core.app.CoreComponentFactory");
              (150, apk);
              (151, "com.example.app")];
  arrays := [(103, [])];
  next := 1000;
  pinned := [];
  accessible := [];
  budget := None
|}.

(** The APK as the installer leaves it: mode 0100644, owned by system;
    the application runs as uid 10123. *)
Definition genuine_disk : Disk := {|
  euid := 10123;
  files := [(apk, {| st_mode := 32768 + octal 6 4 4; st_uid := 1000 |})]
|}.

Definition genuine : World Heap Disk :=
  {| vm := genuine_heap; pending := None; fs := genuine_disk; logcat := [] |}.

(** The APK replaced by a file of the application's own, mode 0100600. *)
Definition own_file_disk : Disk := {|
  euid := 10123;
  files := [(apk, {| st_mode := 32768 + octal 6 0 0; st_uid := 10123 |})]
|}.

Definition own_file : World Heap Disk :=
  {| vm := genuine_heap; pending := None; fs := own_file_disk; logcat := [] |}.

(** A runtime in which no class can be found. *)
Definition empty_heap : Heap := {|
  classes := []; class_of := []; statics := []; members := [];
  strings := []; arrays := []; next := 1000; pinned := [];
  accessible := []; budget := None
|}.

Definition broken : World Heap Disk :=
  {| vm := empty_heap; pending := None; fs := genuine_disk; logcat := [] |}.

(** The untampered installation on a runtime that runs out of memory
    after nine member calls: in [checkApkPaths] the lookups of the five
    paths succeed and the one inside [getApkPath] fails. *)
Definition exhausting : World Heap Disk :=
  {| vm := with_budget genuine_heap (Some 9%nat); pending := None;
     fs := genuine_disk; logcat := [] |}.

(** The untampered installation with a managed exception left pending
    by earlier native code. *)
Definition stale : World Heap Disk :=
  {| vm := genuine_heap; pending := Some 7; fs := genuine_disk; logcat := [] |}.

(** What the probes read of the runtime: the classes, their static and
    instance members and the arrays; and the runtimes that agree on
    it. *)
Definition metadata (h : Heap) :=
  (classes h, class_of h, statics h, members h, arrays h).

Definition same_metadata (a b : Heap * option jthrowable) : Prop :=
  metadata (fst a) = metadata (fst b).

(** The result and the file system a computation ends with. *)
Definition result {A} (o : outcome (World Heap Disk) A) : option A :=
  match o with
  | Ret a _ => Some a
  | Throw _ _ => None
  end.

End Device.

(* ================================================================== *)
(** ** What the specification speaks of *)

(** [s] starts with [p]; [s] ends with [q]. *)
Definition starts_with (p s : string) : Prop := exists rest, s = (p ++ rest)%string.
Definition ends_with (q s : string) : Prop := exists front, s = (front ++ q)%string.

(** The six probes of [checkSignatureBypass], in its order. *)
Inductive Probe :=
| Creator | Field | Creators | PMProxy | AppComponentFactory | ApkPaths.

Section Specification.
Context {H MID FID FS : Type}.
Variable env : JNIEnv H MID FID.
Variable libc : Libc FS.

Local Abbreviation W := (World H FS).

(** No managed exception is pending when the call is over. *)
Definition settled {A} (o : outcome W A) : Prop :=
  pending (world_of o) = None.

(** An exception that leaves the call is the one [JNI_CHECK_EXCEPTION]
    throws. *)
Definition throws_JNIException {A} (o : outcome W A) : Prop :=
  match o with
  | Ret _ _ => True
  | Throw e _ => what e = "JNI exception occurred"
  end.

(** A computation after which no managed exception is pending and
    which throws nothing but that [JNIException]; and one of which this
    holds at least when it throws. *)
Definition settles {A} (m : M W A) : Prop :=
  forall w : W, settled (m w) /\ throws_JNIException (m w).

Definition throws_clean {A} (m : M W A) : Prop :=
  forall w : W,
    match m w with
    | Ret _ _ => True
    | Throw e w' => pending w' = None /\ what e = "JNI exception occurred"
    end.

(** A helper around one entry of the table, in the specification's
    words: the entry is called; if that leaves an exception pending,
    the exception is cleared and a [JNIException] carrying it is
    thrown; otherwise the entry's result is returned. *)
Definition checked_call {A} (call : H -> Reply H A) : M W A := fun w =>
  let w1 := world_of (jni call w) in
  match pending w1 with
  | Some t =>
      Throw (mkJNIException "JNI exception occurred" t) (clear_pending w1)
  | None => jni call w
  end.

(** The probe [p] and its [try] block, with the world in which the
    block is entered from [w]. *)
Definition probe (context : jobject) (p : Probe) : M W bool :=
  match p with
  | Creator => checkCreator env
  | Field => checkField env
  | Creators => checkCreators env
  | PMProxy => checkPMProxy env context
  | AppComponentFactory => checkAppComponentFactory env
  | ApkPaths => checkApkPaths env libc context
  end.

Definition try_block (context : jobject) (p : Probe) : M W bool :=
  match p with
  | Creator => checkCreator_try env "android.content.pm.PackageInfo$1" false
  | Field => checkField_try env false
  | Creators => checkCreators_try env false
  | PMProxy =>
      checkPMProxy_try env context
        "android.content.pm.IPackageManager$Stub$Proxy" false
  | AppComponentFactory =>
      checkAppComponentFactory_try env
        "androidx.core.app.CoreComponentFactory" false
  | ApkPaths => checkApkPaths_try env libc context false
  end.

Definition try_entry (p : Probe) (w : W) : W :=
  match p with
  | Creator =>
      world_of (LOGI "Expected Creator Name: %s"
                  [arg_s "android.content.pm.PackageInfo$1"] w)
  | PMProxy =>
      world_of (LOGI "Expected PM Name: %s"
                  [arg_s "android.content.pm.IPackageManager$Stub$Proxy"] w)
  | AppComponentFactory =>
      world_of (LOGI "Expected AppComponentFactory: %s"
                  [arg_s "androidx.core.app.CoreComponentFactory"] w)
  | _ => w
  end.

(** The class name of [PackageInfo.CREATOR] as [checkCreator] obtains
    it. *)
Definition creator_class_name : M W string :=
  creatorObject <- GetStaticField env jobject_t "android/content/pm/PackageInfo"
                     "CREATOR" (Some "Landroid/os/Parcelable$Creator;");;
  creatorClass <- CallMethod env jobject_t creatorObject
                    "getClass" "()Ljava/lang/Class;" [];;
  jCreatorName <- CallMethod env jstring_t creatorClass
                    "getName" "()Ljava/lang/String;" [];;
  JStringToString env jCreatorName.

(** The number of declared fields of the class of [PackageInfo.CREATOR]
    as [checkField] obtains it. *)
Definition declared_field_count : M W Z :=
  creatorObject <- GetStaticField env jobject_t "android/content/pm/PackageInfo"
                     "CREATOR" (Some "Landroid/os/Parcelable$Creator;");;
  creatorClass <- CallMethod env jobject_t creatorObject
                    "getClass" "()Ljava/lang/Class;" [];;
  fieldArray <- CallMethod env jobject_t creatorClass
                  "getDeclaredFields" "()[Ljava/lang/reflect/Field;" [];;
  jni (env_GetArrayLength env fieldArray).

(** What [checkCreators] obtains, in the order it asks: the string of
    the creator, then the two class loaders and their class names. *)
Record CreatorsSeen : Type := {
  seen_creatorString : string;
  seen_creatorClassloader : jobject;
  seen_sysClassloader : jobject;
  seen_creatorClassloaderName : string;
  seen_sysClassloaderName : string
}.

Definition creators_seen : M W CreatorsSeen :=
  creator <- GetStaticField env jobject_t "android/content/pm/PackageInfo"
               "CREATOR" (Some "Landroid/os/Parcelable$Creator;");;
  jCreatorString <- CallMethod env jstring_t creator
                      "toString" "()Ljava/lang/String;" [];;
  creatorString <- JStringToString env jCreatorString;;
  (if negb (creatorString =? "")%string then
     if negb (string_find creatorString "android.content.pm.PackageInfo$"
              =? 0)
     then LOGE "Creator object is suspicious: %s" [arg_s creatorString]
     else LOGI "Creator object is correct: %s" [arg_s creatorString]
   else ret tt);;
  creatorClass <- CallMethod env jobject_t creator
                    "getClass" "()Ljava/lang/Class;" [];;
  creatorClassloader <- CallMethod env jobject_t creatorClass
                          "getClassLoader" "()Ljava/lang/ClassLoader;" [];;
  sysClassloader <- CallStaticMethod env jobject_t "java/lang/ClassLoader"
                      "getSystemClassLoader" "()Ljava/lang/ClassLoader;" [];;
  creatorClassloaderClass <- CallMethod env jobject_t creatorClassloader
                               "getClass" "()Ljava/lang/Class;" [];;
  sysClassloaderClass <- CallMethod env jobject_t sysClassloader
                           "getClass" "()Ljava/lang/Class;" [];;
  jCreatorClassloaderName <- CallMethod env jstring_t creatorClassloaderClass
                               "getName" "()Ljava/lang/String;" [];;
  jSysClassloaderName <- CallMethod env jstring_t sysClassloaderClass
                           "getName" "()Ljava/lang/String;" [];;
  creatorClassloaderName <- JStringToString env jCreatorClassloaderName;;
  sysClassloaderName <- JStringToString env jSysClassloaderName;;
  ret {| seen_creatorString := creatorString;
         seen_creatorClassloader := creatorClassloader;
         seen_sysClassloader := sysClassloader;
         seen_creatorClassloaderName := creatorClassloaderName;
         seen_sysClassloaderName := sysClassloaderName |}.

(** The conditions under which the specification has [checkCreators]
    report tampering. *)
Definition creators_tampered (s : CreatorsSeen) : Prop :=
  (seen_creatorString s <> "" /\
   ~ starts_with "android.content.pm.PackageInfo$" (seen_creatorString s))
  \/ seen_creatorClassloader s = nullptr
  \/ seen_sysClassloader s = nullptr
  \/ seen_creatorClassloaderName s = seen_sysClassloaderName s.

(** The conditions under which the specification has [checkApkPaths]
    report tampering, on the gathered paths and the file system [d]. *)
Definition permission_bits (st : struct_stat) : Z :=
  Z.land (st_mode st) (octal 7 7 7).

Definition paths_tampered (d : FS) (paths : list string) : Prop :=
  (exists p, In p paths /\ p <> hd "" paths)
  \/ (exists p, In p paths /\ ~ starts_with "/data/app/" p)
  \/ (exists p, In p paths /\ ~ ends_with "/base.apk" p)
  \/ (exists p errno, In p paths /\ libc_stat libc p d = inr errno)
  \/ (exists p st, In p paths /\ libc_stat libc p d = inl st /\
                   (permission_bits st <> octal 6 4 4 \/ st_uid st <> 1000))
  \/ (exists p, In p paths /\ libc_chmod libc p (octal 7 7 7) d <> None).

(** The part of it that is about one file. *)
Definition file_tampered (d : FS) (p : string) : Prop :=
  (exists errno, libc_stat libc p d = inr errno)
  \/ (exists st, libc_stat libc p d = inl st /\
                 (permission_bits st <> octal 6 4 4 \/ st_uid st <> 1000))
  \/ libc_chmod libc p (octal 7 7 7) d <> None.

(** A computation that leaves the file system as it found it. *)
Definition fs_kept {A} (m : M W A) : Prop :=
  forall w : W, fs (world_of (m w)) = fs w.

(** *** Helpers that guard a local reference *)

(** What the destructor of [ScopedLocalRef] leaves: the reference
    deleted when it is not null. *)
Definition release_ref (ref : jobject) (w : W) : W :=
  if is_null ref then w
  else {| vm := env_DeleteLocalRef env ref (vm w); pending := pending w;
          fs := fs w; logcat := logcat w |}.

(** A block guarded by a local reference, in the specification's
    words: what the block did, its value or its exception, with the
    reference released. *)
Definition scoped {A} (ref : jobject) (block : M W A) : M W A := fun w =>
  match block w with
  | Ret a w1 => Ret a (release_ref ref w1)
  | Throw e w1 => Throw e (release_ref ref w1)
  end.

(** *** The paths of [checkApkPaths] *)

(** The five paths the probe asks the runtime for, in its order: the
    package resource path, the package code path, [sourceDir] and
    [publicSourceDir] of the [ApplicationInfo], and [sourceDir] of the
    [ApplicationInfo] obtained through the [PackageManager]. *)
Record FivePaths : Type := {
  seen_resourcePath : string;
  seen_codePath : string;
  seen_sourceDir : string;
  seen_publicSourceDir : string;
  seen_packageInfoSourceDir : string
}.

Definition apk_paths_five (context : jobject) : M W FivePaths :=
  jResourcePath <- CallMethod env jstring_t context "getPackageResourcePath"
                     "()Ljava/lang/String;" [];;
  resourcePath <- JStringToString env jResourcePath;;
  jCodePath <- CallMethod env jstring_t context "getPackageCodePath"
                 "()Ljava/lang/String;" [];;
  codePath <- JStringToString env jCodePath;;
  applicationInfo <- CallMethod env jobject_t context "getApplicationInfo"
                       "()Landroid/content/pm/ApplicationInfo;" [];;
  jSourceDir <- GetField env jstring_t applicationInfo "sourceDir"
                  (Some "Ljava/lang/String;");;
  sourceDir <- JStringToString env jSourceDir;;
  jPublicSourceDir <- GetField env jstring_t applicationInfo "publicSourceDir"
                        (Some "Ljava/lang/String;");;
  publicSourceDir <- JStringToString env jPublicSourceDir;;
  packageManager <- CallMethod env jobject_t context "getPackageManager"
                      "()Landroid/content/pm/PackageManager;" [];;
  packageName <- CallMethod env jstring_t context "getPackageName"
                   "()Ljava/lang/String;" [];;
  applicationInfo2 <- CallMethod env jobject_t packageManager
                        "getApplicationInfo"
                        "(Ljava/lang/String;I)Landroid/content/pm/ApplicationInfo;"
                        [a_jobject packageName; a_jint 0];;
  jPackageInfoSourceDir <- GetField env jstring_t applicationInfo2 "sourceDir"
                             (Some "Ljava/lang/String;");;
  packageInfoSourceDir <- JStringToString env jPackageInfoSourceDir;;
  ret {| seen_resourcePath := resourcePath;
         seen_codePath := codePath;
         seen_sourceDir := sourceDir;
         seen_publicSourceDir := publicSourceDir;
         seen_packageInfoSourceDir := packageInfoSourceDir |}.

(** The lookup of the native APK path: [sourceDir] of the
    [ApplicationInfo] of the context, read once more. *)
Definition native_lookup (context : jobject) : M W string :=
  applicationInfo <- CallMethod env jobject_t context "getApplicationInfo"
                       "()Landroid/content/pm/ApplicationInfo;" [];;
  jSourceDir <- GetField env jstring_t applicationInfo "sourceDir"
                  (Some "Ljava/lang/String;");;
  JStringToString env jSourceDir.

(** All that the probe gathers: the five paths, then the native path,
    which is empty when its lookup throws. *)
Definition apk_paths_seen (context : jobject) : M W (FivePaths * string) :=
  five <- apk_paths_five context;;
  nativeApkPath <-
    try_catch
      (nativeApkPath <-
         try_catch (native_lookup context)
           (fun e => LOGE "Error getting APK path: %s" [arg_s (what e)];;
                     ret "");;
       LOGI "Native APK Path: %s" [arg_s nativeApkPath];;
       ret nativeApkPath)
      (fun e => LOGE "Failed to get native APK path: %s" [arg_s (what e)];;
                ret "");;
  LOGI "Package Resource Path: %s" [arg_s (seen_resourcePath five)];;
  LOGI "Package Code Path: %s" [arg_s (seen_codePath five)];;
  LOGI "ApplicationInfo SourceDir: %s" [arg_s (seen_sourceDir five)];;
  LOGI "ApplicationInfo publicSourceDir: %s"
    [arg_s (seen_publicSourceDir five)];;
  LOGI "PackageManager SourceDir: %s"
    [arg_s (seen_packageInfoSourceDir five)];;
  ret (five, nativeApkPath).

(** The collected path strings of the specification: the five, and
    the native path when it is not empty. *)
Definition collected_paths (five : FivePaths) (nativeApkPath : string)
  : list string :=
  ([seen_resourcePath five; seen_codePath five; seen_sourceDir five;
    seen_publicSourceDir five; seen_packageInfoSourceDir five]
   ++ (if (nativeApkPath =? "")%string then [] else [nativeApkPath]))%list.

(** *** What a probe may do to the runtime and to the log *)

(** The runtime as a probe can affect it: its state and its
    pending-exception slot.  A call of a table entry replaces the state
    and, when it raises, the pending exception. *)
Definition Runtime : Type := (H * option jthrowable)%type.

Definition runtime (w : W) : Runtime := (vm w, pending w).

Definition after_call {A} (r : Reply H A) (p : option jthrowable) : Runtime :=
  (snd r, match snd (fst r) with Some t => Some t | None => p end).

(** A relation on runtimes that every entry of the table respects, and
    the clearing of the pending exception too. *)
Record Respected (R : Runtime -> Runtime -> Prop) : Prop := {
  r_FindClass : forall name h p,
    R (h, p) (after_call (env_FindClass env name h) p);
  r_GetObjectClass : forall o h p,
    R (h, p) (after_call (env_GetObjectClass env o h) p);
  r_GetMethodID : forall c n s h p,
    R (h, p) (after_call (env_GetMethodID env c n s h) p);
  r_GetStaticMethodID : forall c n s h p,
    R (h, p) (after_call (env_GetStaticMethodID env c n s h) p);
  r_GetFieldID : forall c n s h p,
    R (h, p) (after_call (env_GetFieldID env c n s h) p);
  r_GetStaticFieldID : forall c n s h p,
    R (h, p) (after_call (env_GetStaticFieldID env c n s h) p);
  r_GetField : forall ty o f h p,
    R (h, p) (after_call (env_GetField env ty o f h) p);
  r_GetStaticField : forall ty c f h p,
    R (h, p) (after_call (env_GetStaticField env ty c f h) p);
  r_CallMethod : forall ty o m h p,
    R (h, p) (after_call (env_CallMethod env ty o m h) p);
  r_CallStaticMethod : forall ty c m h p,
    R (h, p) (after_call (env_CallStaticMethod env ty c m h) p);
  r_CallMethodA : forall ty o m args h p,
    R (h, p) (after_call (env_CallMethodA env ty o m args h) p);
  r_CallStaticMethodA : forall ty c m args h p,
    R (h, p) (after_call (env_CallStaticMethodA env ty c m args h) p);
  r_NewObjectA : forall c m args h p,
    R (h, p) (after_call (env_NewObjectA env c m args h) p);
  r_NewStringUTF : forall s h p,
    R (h, p) (after_call (env_NewStringUTF env s h) p);
  r_GetStringUTFChars : forall s h p,
    R (h, p) (after_call (env_GetStringUTFChars env s h) p);
  r_GetArrayLength : forall a h p,
    R (h, p) (after_call (env_GetArrayLength env a h) p);
  r_GetObjectArrayElement : forall a i h p,
    R (h, p) (after_call (env_GetObjectArrayElement env a i h) p);
  r_ReleaseStringUTFChars : forall s chars h p,
    R (h, p) (env_ReleaseStringUTFChars env s chars h, p);
  r_DeleteLocalRef : forall o h p,
    R (h, p) (env_DeleteLocalRef env o h, p);
  r_ExceptionClear : forall h p, R (h, p) (h, None)
}.

(** The calls of table entries. *)
Inductive entry : forall A : Type, (H -> Reply H A) -> Prop :=
| entry_FindClass name : entry _ (env_FindClass env name)
| entry_GetObjectClass o : entry _ (env_GetObjectClass env o)
| entry_GetMethodID c n s : entry _ (env_GetMethodID env c n s)
| entry_GetStaticMethodID c n s : entry _ (env_GetStaticMethodID env c n s)
| entry_GetFieldID c n s : entry _ (env_GetFieldID env c n s)
| entry_GetStaticFieldID c n s : entry _ (env_GetStaticFieldID env c n s)
| entry_GetField ty o f : entry _ (env_GetField env ty o f)
| entry_GetStaticField ty c f : entry _ (env_GetStaticField env ty c f)
| entry_CallMethod ty o m : entry _ (env_CallMethod env ty o m)
| entry_CallStaticMethod ty c m : entry _ (env_CallStaticMethod env ty c m)
| entry_CallMethodA ty o m args : entry _ (env_CallMethodA env ty o m args)
| entry_CallStaticMethodA ty c m args :
    entry _ (env_CallStaticMethodA env ty c m args)
| entry_NewObjectA c m args : entry _ (env_NewObjectA env c m args)
| entry_NewStringUTF s : entry _ (env_NewStringUTF env s)
| entry_GetStringUTFChars s : entry _ (env_GetStringUTFChars env s)
| entry_GetArrayLength a : entry _ (env_GetArrayLength env a)
| entry_GetObjectArrayElement a i :
    entry _ (env_GetObjectArrayElement env a i).

Inductive quiet_entry : (H -> H) -> Prop :=
| entry_ReleaseStringUTFChars s chars :
    quiet_entry (env_ReleaseStringUTFChars env s chars)
| entry_DeleteLocalRef o : quiet_entry (env_DeleteLocalRef env o).

(** A computation that relates the world it starts in to the world it
    ends in. *)
Definition confined (Q : W -> W -> Prop) {A} (m : M W A) : Prop :=
  forall w : W, Q w (world_of (m w)).

(** The log only grows. *)
Definition log_extended (w w' : W) : Prop :=
  exists l, logcat w' = (logcat w ++ l)%list.

(** *** Further notions *)

(** A computation that always returns: no exception leaves it. *)
Definition returns {A} (m : M W A) : Prop :=
  forall w : W, exists a w', m w = Ret a w'.

(** The class name of the [mPM] field of the package manager as
    [checkPMProxy] obtains it. *)
Definition pm_proxy_class_name (context : jobject) : M W string :=
  packageManager <- CallMethod env jobject_t context "getPackageManager"
                      "()Landroid/content/pm/PackageManager;" [];;
  packageManagerClass <- CallMethod env jobject_t packageManager
                           "getClass" "()Ljava/lang/Class;" [];;
  fieldNameStr <- jni (env_NewStringUTF env "mPM");;
  mPMField <- CallMethod env jobject_t packageManagerClass "getDeclaredField"
                "(Ljava/lang/String;)Ljava/lang/reflect/Field;"
                [a_jobject fieldNameStr];;
  CallMethod env jvoid mPMField "setAccessible" "(Z)V" [a_jint 1];;
  mPM <- CallMethod env jobject_t mPMField "get"
           "(Ljava/lang/Object;)Ljava/lang/Object;" [a_jobject packageManager];;
  mPMClass <- CallMethod env jobject_t mPM "getClass" "()Ljava/lang/Class;" [];;
  jPMName <- CallMethod env jstring_t mPMClass
               "getName" "()Ljava/lang/String;" [];;
  JStringToString env jPMName.

(** What [checkAppComponentFactory] finds. *)
Inductive FactorySeen :=
| NoApplication
| NoFactory
| Factory (name : string).

Definition app_component_factory_seen : M W FactorySeen :=
  application <- getApplication env;;
  if negb (is_null application) then
    applicationInfo <- CallMethod env jobject_t application "getApplicationInfo"
                         "()Landroid/content/pm/ApplicationInfo;" [];;
    jAppComponentFactory <- GetField env jstring_t applicationInfo
                              "appComponentFactory" (Some "Ljava/lang/String;");;
    if negb (is_null jAppComponentFactory) then
      appComponentFactory <- JStringToString env jAppComponentFactory;;
      ret (Factory appComponentFactory)
    else ret NoFactory
  else ret NoApplication.

(** What the last loop of [checkApkPaths] does to the file system for
    one path: nothing when the path cannot be stat-ed or the [chmod] to
    0777 fails; otherwise that [chmod], followed by the [chmod] to 0644
    when it succeeds. *)
Definition chmod_trial (d : FS) (path : string) : FS :=
  match libc_stat libc path d with
  | inr _ => d
  | inl _ =>
      match libc_chmod libc path (octal 7 7 7) d with
      | None => d
      | Some d1 =>
          match libc_chmod libc path (octal 6 4 4) d1 with
          | Some d2 => d2
          | None => d1
          end
      end
  end.

(** An argument for which [setJValue] creates a Java string. *)
Definition makes_string (value : Arg) : bool :=
  match value with
  | a_string _ => true
  | a_cstr (Some _) => true
  | _ => false
  end.

End Specification.

(* ================================================================== *)
(** ** Strings *)

Lemma prefix_starts_with (p s : string) :
  String.prefix p s = true <-> starts_with p s.
Proof.
  revert s; induction p as [|a p IH]; intros s.
  - destruct s; simpl; split; intros _; try reflexivity; eexists; reflexivity.
  - destruct s as [|b s]; simpl.
    + split; [discriminate | intros [rest Hr]; discriminate].
    + destruct (ascii_dec a b) as [->|Hab].
      * rewrite IH. split; intros [rest Hr]; exists rest.
        -- simpl; now rewrite Hr.
        -- simpl in Hr; now injection Hr.
      * split; [discriminate | intros [rest Hr]].
        simpl in Hr; injection Hr as Hb _; congruence.
Qed.

Lemma index_0_prefix (p s : string) :
  String.index 0 p s = Some 0%nat <-> String.prefix p s = true.
Proof.
  destruct s as [|b s].
  - destruct p; simpl; split; congruence.
  - cbn [String.index].
    destruct (String.prefix p (String b s)); [tauto|].
    destruct (String.index 0 p s); split; discriminate.
Qed.

Lemma string_find_starts_with (s p : string) :
  (string_find s p =? 0) = true <-> starts_with p s.
Proof.
  rewrite <- prefix_starts_with, <- index_0_prefix, Z.eqb_eq.
  unfold string_find, npos.
  destruct (String.index 0 p s) as [n|].
  - split; intros Hn; [f_equal; lia | injection Hn as ->; reflexivity].
  - split; [intros Hn; exfalso; revert Hn; discriminate | discriminate].
Qed.

Lemma substring_all (q : string) : String.substring 0 (String.length q) q = q.
Proof. induction q as [|c q IH]; simpl; [reflexivity | now rewrite IH]. Qed.

Lemma substring_append (front q : string) :
  String.substring (String.length front) (String.length q) (front ++ q) = q.
Proof.
  induction front as [|c front IH]; simpl; [apply substring_all | exact IH].
Qed.

Lemma substring_split (k : nat) (s : string) :
  (k <= String.length s)%nat ->
  exists front,
    s = (front ++ String.substring k (String.length s - k) s)%string.
Proof.
  revert s; induction k as [|k IH]; intros s Hk.
  - exists ""; simpl. now rewrite Nat.sub_0_r, substring_all.
  - destruct s as [|c s]; simpl in Hk; [lia|].
    destruct (IH s) as [front Hf]; [lia|].
    exists (String c front); simpl. now rewrite <- Hf.
Qed.

Lemma length_append (a b : string) :
  String.length (a ++ b) = (String.length a + String.length b)%nat.
Proof. induction a as [|c a IH]; simpl; [reflexivity | now rewrite IH]. Qed.

(** The test of lines 355: it fails exactly on the strings that end
    with [q]. *)
Lemma substr_ends_with (q s : string) :
  (string_length s <? string_length q)
  || negb (string_substr s (string_length s - string_length q) =? q)%string
  = false <-> ends_with q s.
Proof.
  unfold string_length, string_substr.
  rewrite orb_false_iff, Z.ltb_ge, negb_false_iff, String.eqb_eq.
  split.
  - intros [Hlen Hsub].
    replace (Z.to_nat (Z.of_nat (String.length s) - Z.of_nat (String.length q)))
      with (String.length s - String.length q)%nat in Hsub by lia.
    destruct (substring_split (String.length s - String.length q) s)
      as [front Hf]; [lia|].
    exists front. rewrite Hsub in Hf. exact Hf.
  - intros [front ->]. rewrite length_append. split; [lia|].
    replace (Z.to_nat (Z.of_nat (String.length front + String.length q)
                       - Z.of_nat (String.length q)))
      with (String.length front) by lia.
    replace (String.length front + String.length q - String.length front)%nat
      with (String.length q) by lia.
    apply substring_append.
Qed.

(* ================================================================== *)
(** ** The helpers of namespace [jni] *)

Section HelperProofs.
Context {H MID FID FS : Type}.
Variable env : JNIEnv H MID FID.

Local Abbreviation W := (World H FS).
Local Abbreviation settles m := (@settles H FS _ m).
Local Abbreviation throws_clean m := (@throws_clean H FS _ m).


Lemma settles_throws_clean {A} (m : M W A) : settles m -> throws_clean m.
Proof.
  intros Hm w. destruct (Hm w) as [Hs Ht]. unfold settled in Hs.
  destruct (m w); simpl in *; auto.
Qed.

Lemma throws_clean_ret {A} (a : A) : throws_clean (ret a : M W A).
Proof. intros w; exact I. Qed.

Lemma throws_clean_jni {A} (call : H -> Reply H A) : throws_clean (jni call : M W A).
Proof. intros w. unfold jni. destruct (call (vm w)) as [[a r] h]. exact I. Qed.

Lemma throws_clean_bind {A B} (m : M W A) (k : A -> M W B) :
  throws_clean m -> (forall a, throws_clean (k a)) -> throws_clean (bind m k).
Proof.
  intros Hm Hk w. unfold bind. specialize (Hm w).
  destruct (m w) as [a w'|e w']; [apply Hk | exact Hm].
Qed.

Lemma settles_bind {A B} (m : M W A) (k : A -> M W B) :
  throws_clean m -> (forall a, settles (k a)) -> settles (bind m k).
Proof.
  intros Hm Hk w. unfold bind. specialize (Hm w).
  destruct (m w) as [a w'|e w']; [apply Hk|].
  destruct Hm as [Hp He]. split; assumption.
Qed.

Lemma settles_check_ret {A} (a : A) : settles (JNI_CHECK_EXCEPTION env;; ret a : M W A).
Proof.
  intros w. unfold JNI_CHECK_EXCEPTION, ExceptionCheck, ExceptionDescribe, bind.
  destruct (pending w) as [t|] eqn:Hp; simpl;
    destruct (env_ExceptionDescribe_clears env); unfold settled; simpl; auto.
Qed.

(** The shape of every wrapper: call, check, return. *)
Lemma settles_checked {A B} (call : H -> Reply H A) (f : A -> B) :
  settles (result <- jni call;; JNI_CHECK_EXCEPTION env;; ret (f result) : M W B).
Proof. apply settles_bind; [apply throws_clean_jni | intros a; apply settles_check_ret]. Qed.

Lemma checked_call_eq {A B} (call : H -> Reply H A) (f : A -> B) (w : W) :
  (result <- jni call;; JNI_CHECK_EXCEPTION env;; ret (f result)) w
  = (result <- checked_call call;; ret (f result)) w.
Proof.
  unfold checked_call, bind, jni, JNI_CHECK_EXCEPTION, ExceptionCheck,
    ExceptionDescribe, bind.
  destruct (call (vm w)) as [[a [t|]] h]; simpl;
    [destruct (env_ExceptionDescribe_clears env); reflexivity|].
  destruct (pending w); [|reflexivity].
  destruct (env_ExceptionDescribe_clears env); reflexivity.
Qed.

Lemma dtor_pending (ref : jobject) (w : W) :
  exists w', ScopedLocalRef_dtor env ref w = Ret tt w'
             /\ pending w' = pending w /\ fs w' = fs w
             /\ logcat w' = logcat w.
Proof.
  unfold ScopedLocalRef_dtor, jni_, ret.
  destruct (is_null ref); eexists; split; try reflexivity; simpl; auto.
Qed.

Lemma settles_ScopedLocalRef {A} (ref : jobject) (scope : M W A) :
  settles scope -> settles (ScopedLocalRef env ref scope).
Proof.
  intros Hs w. unfold ScopedLocalRef. destruct (Hs w) as [Hp Ht].
  unfold settled in *.
  destruct (scope w) as [a w'|e w']; unfold bind;
    destruct (dtor_pending ref w') as (w2 & -> & Hp2 & _); simpl in *;
    split; congruence || auto.
Qed.

Lemma throws_clean_setJValue (value : Arg) : throws_clean (setJValue env value).
Proof.
  destruct value as [| | | | | | | | | | |[v|]]; simpl; try apply throws_clean_ret;
    (apply throws_clean_bind; [apply throws_clean_jni | intros; apply throws_clean_ret]).
Qed.

Lemma throws_clean_ArgsToJValues (args : list Arg) : throws_clean (ArgsToJValues env args).
Proof.
  induction args as [|a args IH]; simpl; [apply throws_clean_ret|].
  apply throws_clean_bind; [apply throws_clean_setJValue | intros v].
  apply throws_clean_bind; [exact IH | intros vs; apply throws_clean_ret].
Qed.

Lemma settles_FindClass (className : string) : settles (FindClass env className).
Proof. apply (settles_checked _ (fun x => x)). Qed.

Lemma settles_GetMethodID cls name sig : settles (GetMethodID env cls name sig).
Proof. apply (settles_checked _ (fun x => x)). Qed.

Lemma settles_GetStaticMethodID cls name sig :
  settles (GetStaticMethodID env cls name sig).
Proof. apply (settles_checked _ (fun x => x)). Qed.

Lemma settles_GetFieldID cls name sig : settles (GetFieldID env cls name sig).
Proof. apply (settles_checked _ (fun x => x)). Qed.

Lemma settles_GetStaticFieldID cls name sig :
  settles (GetStaticFieldID env cls name sig).
Proof. apply (settles_checked _ (fun x => x)). Qed.

Lemma settles_CallMethod ty obj name sig args :
  settles (CallMethod env ty obj name sig args).
Proof.
  apply settles_bind; [apply throws_clean_jni | intros cls].
  apply settles_ScopedLocalRef.
  apply settles_bind; [apply settles_throws_clean, settles_GetMethodID | intros mid].
  destruct args as [|a args]; [apply settles_checked|].
  apply settles_bind; [apply throws_clean_ArgsToJValues | intros vs; apply settles_checked].
Qed.

Lemma settles_CallStaticMethod ty cls name sig args :
  settles (CallStaticMethod env ty cls name sig args).
Proof.
  apply settles_bind; [apply settles_throws_clean, settles_FindClass | intros c].
  apply settles_ScopedLocalRef.
  apply settles_bind; [apply settles_throws_clean, settles_GetStaticMethodID | intros mid].
  destruct args as [|a args]; [apply settles_checked|].
  apply settles_bind; [apply throws_clean_ArgsToJValues | intros vs; apply settles_checked].
Qed.

Lemma settles_NewObject cls sig args : settles (NewObject env cls sig args).
Proof.
  apply settles_bind; [apply settles_throws_clean, settles_FindClass | intros c].
  apply settles_ScopedLocalRef.
  apply settles_bind; [apply settles_throws_clean, settles_GetMethodID | intros mid].
  apply settles_bind; [apply throws_clean_ArgsToJValues | intros vs].
  apply (settles_checked _ (fun x => x)).
Qed.

Lemma settles_ret_after {A B} (m : M W A) (f : A -> B) :
  settles m -> settles (a <- m;; ret (f a)).
Proof.
  intros Hm w. unfold bind, ret. specialize (Hm w).
  destruct (m w); exact Hm.
Qed.

Lemma settles_GetField ty obj name sig : settles (GetField env ty obj name sig).
Proof.
  apply settles_bind; [apply throws_clean_jni | intros cls].
  apply settles_ScopedLocalRef.
  apply settles_bind; [apply settles_throws_clean, settles_GetFieldID | intros fid].
  destruct sig; [apply settles_ret_after|]; apply settles_checked.
Qed.

Lemma settles_GetStaticField ty cls name sig :
  settles (GetStaticField env ty cls name sig).
Proof.
  apply settles_bind; [apply settles_throws_clean, settles_FindClass | intros c].
  apply settles_ScopedLocalRef.
  apply settles_bind; [apply settles_throws_clean, settles_GetStaticFieldID | intros fid].
  destruct sig; [apply settles_ret_after|]; apply settles_checked.
Qed.

Lemma bind_ext {A B} (m : M W A) (k k' : A -> M W B) (w : W) :
  (forall a w', k a w' = k' a w') -> bind m k w = bind m k' w.
Proof. intros Hk. unfold bind. destruct (m w); [apply Hk | reflexivity]. Qed.

Lemma ScopedLocalRef_ext {A} (ref : jobject) (scope scope' : M W A) (w : W) :
  scope w = scope' w ->
  ScopedLocalRef env ref scope w = ScopedLocalRef env ref scope' w.
Proof. intros Hs. unfold ScopedLocalRef. rewrite Hs. reflexivity. Qed.

Lemma checked_call_id {A} (call : H -> Reply H A) (w : W) :
  (result <- jni call;; JNI_CHECK_EXCEPTION env;; ret result) w
  = checked_call call w.
Proof.
  rewrite (checked_call_eq call (fun x => x)).
  unfold bind, ret. destruct (checked_call call w); reflexivity.
Qed.

Lemma bind_cong {A B} (m m' : M W A) (k k' : A -> M W B) (w : W) :
  m w = m' w -> (forall a w', k a w' = k' a w') -> bind m k w = bind m' k' w.
Proof.
  intros Hm Hk. unfold bind. rewrite Hm.
  destruct (m' w); [apply Hk | reflexivity].
Qed.

Lemma ScopedLocalRef_scoped {A} (ref : jobject) (block block' : M W A)
  (w : W) :
  block w = block' w ->
  ScopedLocalRef env ref block w = scoped env ref block' w.
Proof.
  intros Hb.
  unfold ScopedLocalRef, scoped, ScopedLocalRef_dtor, release_ref, bind, jni_,
    ret, throw.
  rewrite Hb. destruct (block' w); destruct (is_null ref); reflexivity.
Qed.

Lemma checked_call_then {A B} (call : H -> Reply H A) (f : A -> B) (w : W) :
  (o <- (result <- jni call;; JNI_CHECK_EXCEPTION env;; ret result);;
   ret (f o)) w
  = (o <- checked_call call;; ret (f o)) w.
Proof. apply bind_cong; [apply checked_call_id | reflexivity]. Qed.

(** C7.  Every helper of namespace [jni] is written out in the
    specification's words: each call of a table entry that the helper
    checks is a checked call, which clears a pending exception and
    throws a [JNIException] carrying that throwable, or else returns
    the entry's result; the helper returns the result of its last
    call, and its class reference is released on both ways out.  So
    [FindClass] and the four ID lookups are one checked call, and
    [CallMethod], [CallStaticMethod], [GetField], [GetStaticField] and
    [NewObject], with and without arguments or signature, are the
    checked lookups followed by the checked call.  And after any
    helper, whether it returned or threw, no managed exception is
    pending, and what it throws is that [JNIException]. *)
Theorem jni_helpers_clear_pending_exception :
  (forall className (w : W),
      FindClass env className w
      = checked_call (env_FindClass env className) w)
  /\ (forall cls name sig (w : W),
      GetMethodID env cls name sig w
      = checked_call (env_GetMethodID env cls name sig) w)
  /\ (forall cls name sig (w : W),
      GetStaticMethodID env cls name sig w
      = checked_call (env_GetStaticMethodID env cls name sig) w)
  /\ (forall cls name sig (w : W),
      GetFieldID env cls name sig w
      = checked_call (env_GetFieldID env cls name sig) w)
  /\ (forall cls name sig (w : W),
      GetStaticFieldID env cls name sig w
      = checked_call (env_GetStaticFieldID env cls name sig) w)
  /\ (forall ty obj fid (w : W),
      JNITypeTraits_GetField env ty obj fid w
      = (r <- checked_call (env_GetField env (slot ty) obj fid);;
         ret (static_cast ty r)) w)
  /\ (forall ty cls fid (w : W),
      JNITypeTraits_GetStaticField env ty cls fid w
      = (r <- checked_call (env_GetStaticField env (slot ty) cls fid);;
         ret (static_cast ty r)) w)
  /\ (forall ty obj mid args (w : W),
      JNITypeTraits_CallMethod env ty obj mid args w
      = (r <- checked_call (env_CallMethodA env (slot ty) obj mid args);;
         ret (static_cast ty r)) w)
  /\ (forall ty cls mid args (w : W),
      JNITypeTraits_CallStaticMethod env ty cls mid args w
      = (r <- checked_call (env_CallStaticMethodA env (slot ty) cls mid args);;
         ret (static_cast ty r)) w)
  /\ (forall ty obj name sig args (w : W),
      CallMethod env ty obj name sig args w
      = (cls <- jni (env_GetObjectClass env obj);;
         scoped env cls (
           mid <- checked_call (env_GetMethodID env cls name sig);;
           match args with
           | [] =>
               r <- checked_call (env_CallMethod env (slot ty) obj mid);;
               ret (static_cast ty r)
           | _ =>
               jvalues <- ArgsToJValues env args;;
               r <- checked_call
                      (env_CallMethodA env (slot ty) obj mid jvalues);;
               ret (static_cast ty r)
           end)) w)
  /\ (forall ty className name sig args (w : W),
      CallStaticMethod env ty className name sig args w
      = (cls <- checked_call (env_FindClass env className);;
         scoped env cls (
           mid <- checked_call (env_GetStaticMethodID env cls name sig);;
           match args with
           | [] =>
               r <- checked_call (env_CallStaticMethod env (slot ty) cls mid);;
               ret (static_cast ty r)
           | _ =>
               jvalues <- ArgsToJValues env args;;
               r <- checked_call
                      (env_CallStaticMethodA env (slot ty) cls mid jvalues);;
               ret (static_cast ty r)
           end)) w)
  /\ (forall className sig args (w : W),
      NewObject env className sig args w
      = (cls <- checked_call (env_FindClass env className);;
         scoped env cls (
           constructor <- checked_call (env_GetMethodID env cls "<init>" sig);;
           jvalues <- ArgsToJValues env args;;
           checked_call (env_NewObjectA env cls constructor jvalues))) w)
  /\ (forall ty obj name sig (w : W),
      GetField env ty obj name sig w
      = (cls <- jni (env_GetObjectClass env obj);;
         scoped env cls (
           match sig with
           | Some s =>
               fid <- checked_call (env_GetFieldID env cls name s);;
               o <- checked_call (env_GetField env jobject_t obj fid);;
               ret (from_jobject ty o)
           | None =>
               fid <- checked_call
                        (env_GetFieldID env cls name
                           (JNITypeTraits_signature ty));;
               r <- checked_call (env_GetField env (slot ty) obj fid);;
               ret (static_cast ty r)
           end)) w)
  /\ (forall ty className name sig (w : W),
      GetStaticField env ty className name sig w
      = (cls <- checked_call (env_FindClass env className);;
         scoped env cls (
           match sig with
           | Some s =>
               fid <- checked_call (env_GetStaticFieldID env cls name s);;
               o <- checked_call (env_GetStaticField env jobject_t cls fid);;
               ret (from_jobject ty o)
           | None =>
               fid <- checked_call
                        (env_GetStaticFieldID env cls name
                           (JNITypeTraits_signature ty));;
               r <- checked_call (env_GetStaticField env (slot ty) cls fid);;
               ret (static_cast ty r)
           end)) w)
  /\ (forall className, settles (FindClass env className))
  /\ (forall cls name sig, settles (GetMethodID env cls name sig))
  /\ (forall cls name sig, settles (GetStaticMethodID env cls name sig))
  /\ (forall cls name sig, settles (GetFieldID env cls name sig))
  /\ (forall cls name sig, settles (GetStaticFieldID env cls name sig))
  /\ (forall ty obj name sig args, settles (CallMethod env ty obj name sig args))
  /\ (forall ty cls name sig args,
      settles (CallStaticMethod env ty cls name sig args))
  /\ (forall ty obj name sig, settles (GetField env ty obj name sig))
  /\ (forall ty cls name sig, settles (GetStaticField env ty cls name sig))
  /\ (forall cls sig args, settles (NewObject env cls sig args)).
Proof.
  repeat match goal with |- _ /\ _ => split end;
    try solve [intros; apply checked_call_id | intros; apply checked_call_eq].
  - intros. unfold CallMethod.
    apply bind_ext; intros cls w1. apply ScopedLocalRef_scoped.
    apply bind_cong; [apply checked_call_id | intros mid w2].
    destruct args as [|a args]; [apply checked_call_eq|].
    apply bind_ext; intros jvalues w3. apply checked_call_eq.
  - intros. unfold CallStaticMethod.
    apply bind_cong; [apply checked_call_id | intros cls w1].
    apply ScopedLocalRef_scoped.
    apply bind_cong; [apply checked_call_id | intros mid w2].
    destruct args as [|a args]; [apply checked_call_eq|].
    apply bind_ext; intros jvalues w3. apply checked_call_eq.
  - intros. unfold NewObject.
    apply bind_cong; [apply checked_call_id | intros cls w1].
    apply ScopedLocalRef_scoped.
    apply bind_cong; [apply checked_call_id | intros mid w2].
    apply bind_ext; intros jvalues w3. apply checked_call_id.
  - intros. unfold GetField.
    apply bind_ext; intros cls w1. apply ScopedLocalRef_scoped.
    destruct sig as [s|]; cbv zeta;
      (apply bind_cong; [apply checked_call_id | intros fid w2]).
    + apply (checked_call_then (env_GetField env jobject_t obj fid)).
    + apply checked_call_eq.
  - intros. unfold GetStaticField.
    apply bind_cong; [apply checked_call_id | intros cls w1].
    apply ScopedLocalRef_scoped.
    destruct sig as [s|]; cbv zeta;
      (apply bind_cong; [apply checked_call_id | intros fid w2]).
    + apply (checked_call_then (env_GetStaticField env jobject_t cls fid)).
    + apply checked_call_eq.
  - exact settles_FindClass.
  - exact settles_GetMethodID.
  - exact settles_GetStaticMethodID.
  - exact settles_GetFieldID.
  - exact settles_GetStaticFieldID.
  - exact settles_CallMethod.
  - exact settles_CallStaticMethod.
  - exact settles_GetField.
  - exact settles_GetStaticField.
  - exact settles_NewObject.
Qed.

(** C10.  [JStringToString] always returns and throws nothing.  For a
    null [jstring] it returns the empty string without calling the
    runtime; when [GetStringUTFChars] yields no buffer it returns the
    empty string; when it yields the characters, it returns them and
    the buffer has been given back with [ReleaseStringUTFChars]. *)
Theorem JStringToString_total (jstr : jstring) (w : W) :
  exists s w',
    JStringToString env jstr w = Ret s w'
    /\ if is_null jstr then s = "" /\ w' = w
       else
         match jni (env_GetStringUTFChars env jstr) w with
         | Ret None w1 => s = "" /\ w' = w1
         | Ret (Some chars) w1 =>
             s = chars
             /\ jni_ (env_ReleaseStringUTFChars env jstr chars) w1 = Ret tt w'
         | Throw _ _ => False
         end.
Proof.
  unfold JStringToString.
  destruct (is_null jstr) eqn:Hnull.
  - exists "", w. repeat split.
  - unfold bind.
    destruct (jni (env_GetStringUTFChars env jstr) w) as [[chars|] w1|e w1] eqn:Hget.
    + eexists chars, _. unfold jni_, ret. repeat split.
    + exists "", w1. repeat split.
    + unfold jni in Hget.
      destruct (env_GetStringUTFChars env jstr (vm w)) as [[a r] h].
      discriminate.
Qed.

(** *** Further properties of the helpers *)

(** X8.  [ArgsToJValues] always returns, with one [jvalue] per
    argument; it touches neither the file system nor the log; and when
    no argument is a [std::string] or a non-null [const char*] it makes
    no call into the runtime at all: the world is the one it started
    in. *)
Theorem ArgsToJValues_spec (args : list Arg) (w : W) :
  exists vs w',
    ArgsToJValues env args w = Ret vs w'
    /\ List.length vs = List.length args
    /\ fs w' = fs w
    /\ logcat w' = logcat w
    /\ (forallb (fun a => negb (makes_string a)) args = true -> w' = w).
Proof.
  revert w; induction args as [|a args IH]; intros w; cbn [ArgsToJValues].
  - exists [], w. repeat split.
  - assert (Ha : exists v w1,
               setJValue env a w = Ret v w1 /\ fs w1 = fs w
               /\ logcat w1 = logcat w
               /\ (makes_string a = false -> w1 = w)).
    { destruct a as [| | | | | | | | | | |[c|]]; cbn [setJValue makes_string];
        try (eexists _, w; repeat split; fail);
        unfold StringToJString, bind, jni;
        match goal with
        | |- context [env_NewStringUTF env ?c (vm w)] =>
            destruct (env_NewStringUTF env c (vm w)) as [[j r] h]
        end;
        eexists _, _; repeat split; discriminate. }
    destruct Ha as (v & w1 & Hv & Hfs1 & Hlog1 & Hpure1).
    destruct (IH w1) as (vs & w' & Hvs & Hlen & Hfs & Hlog & Hpure).
    exists (v :: vs), w'. unfold bind. rewrite Hv, Hvs.
    repeat split; cbn [List.length]; try congruence.
    cbn [forallb]. rewrite andb_true_iff, negb_true_iff. intros [Hna Hnargs].
    rewrite (Hpure Hnargs). apply Hpure1, Hna.
Qed.

Lemma checked_throws_on_pending {A} (call : H -> Reply H A) (t : jthrowable)
  (w : W) :
  pending w = Some t ->
  exists e w',
    (result <- jni call;; JNI_CHECK_EXCEPTION env;; ret result) w = Throw e w'
    /\ pending w' = None.
Proof.
  intros Hp. unfold bind, jni, JNI_CHECK_EXCEPTION, ExceptionCheck,
    ExceptionDescribe, bind.
  destruct (call (vm w)) as [[a [t'|]] h]; cbn; [|rewrite Hp; cbn];
    destruct (env_ExceptionDescribe_clears env);
    eexists _, _; split; reflexivity.
Qed.

Lemma jni_keeps_pending {A} (call : H -> Reply H A) (t : jthrowable) (w : W) :
  pending w = Some t ->
  exists a t' w', jni call w = Ret a w' /\ pending w' = Some t'.
Proof.
  intros Hp. unfold jni. destruct (call (vm w)) as [[a [t'|]] h];
    eexists _, _, _; (split; [reflexivity|]); cbn;
    [reflexivity | exact Hp].
Qed.

Lemma GetStaticField_throws_on_pending ty className name sig
  (t : jthrowable) (w : W) :
  pending w = Some t ->
  exists e w', GetStaticField env ty className name sig w = Throw e w'.
Proof.
  intros Hp.
  destruct (checked_throws_on_pending (env_FindClass env className) t w Hp)
    as (e & w' & He & _).
  change (FindClass env className w = Throw e w') in He.
  exists e, w'. unfold GetStaticField, bind at 1. rewrite He. reflexivity.
Qed.

(** X11.  A helper called while a managed exception is pending throws.
    [FindClass] and the ID lookups throw after their one call.  The
    composite helpers stop at their first checked lookup: the outcome
    of [CallMethod] and [GetField] is that of [GetObjectClass] followed
    by the ID lookup, the outcome of [CallStaticMethod],
    [GetStaticField] and [NewObject] is that of [FindClass]; the
    method is not called, the field not read, the object not made. *)
Theorem helpers_throw_on_pending (t : jthrowable) (w : W)
  (Hpending : pending w = Some t) :
  (forall className, exists e w', FindClass env className w = Throw e w')
  /\ (forall cls name sig,
        exists e w', GetMethodID env cls name sig w = Throw e w')
  /\ (forall cls name sig,
        exists e w', GetStaticMethodID env cls name sig w = Throw e w')
  /\ (forall cls name sig,
        exists e w', GetFieldID env cls name sig w = Throw e w')
  /\ (forall cls name sig,
        exists e w', GetStaticFieldID env cls name sig w = Throw e w')
  /\ (forall ty obj name sig args,
        exists e w',
          CallMethod env ty obj name sig args w = Throw e w'
          /\ (cls <- jni (env_GetObjectClass env obj);;
              ScopedLocalRef env cls (GetMethodID env cls name sig)) w
             = Throw e w')
  /\ (forall ty obj name sig,
        exists e w',
          GetField env ty obj name sig w = Throw e w'
          /\ (cls <- jni (env_GetObjectClass env obj);;
              ScopedLocalRef env cls
                (GetFieldID env cls name
                   match sig with
                   | Some s => s
                   | None => JNITypeTraits_signature ty
                   end)) w
             = Throw e w')
  /\ (forall ty className name sig args,
        exists e w',
          CallStaticMethod env ty className name sig args w = Throw e w'
          /\ FindClass env className w = Throw e w')
  /\ (forall ty className name sig,
        exists e w',
          GetStaticField env ty className name sig w = Throw e w'
          /\ FindClass env className w = Throw e w')
  /\ (forall className sig args,
        exists e w',
          NewObject env className sig args w = Throw e w'
          /\ FindClass env className w = Throw e w').
Proof.
  assert (Hone : forall A (call : H -> Reply H A),
             exists e w',
               (result <- jni call;; JNI_CHECK_EXCEPTION env;; ret result) w
               = Throw e w').
  { intros A call.
    destruct (checked_throws_on_pending call t w Hpending) as (e & w' & He & _).
    exists e, w'. exact He. }
  assert (Hobj : forall A B obj (lookup : jclass -> M W A)
                        (rest : A -> M W B),
             (forall cls w1 t1, pending w1 = Some t1 ->
                                exists e w', lookup cls w1 = Throw e w') ->
             exists e w',
               (cls <- jni (env_GetObjectClass env obj);;
                ScopedLocalRef env cls (a <- lookup cls;; rest a)) w
               = Throw e w'
               /\ (cls <- jni (env_GetObjectClass env obj);;
                   ScopedLocalRef env cls (lookup cls)) w = Throw e w').
  { intros A B obj lookup rest Hlookup. unfold bind at 1 3.
    destruct (jni_keeps_pending (env_GetObjectClass env obj) t w Hpending)
      as (cls & t1 & w1 & -> & Hp1).
    destruct (Hlookup cls w1 t1 Hp1) as (e & w2 & He).
    unfold ScopedLocalRef, bind. rewrite He.
    destruct (dtor_pending cls w2) as (w3 & -> & _).
    exists e, w3. split; reflexivity. }
  repeat match goal with |- _ /\ _ => split end; intros;
    try apply Hone.
  - apply (Hobj _ _ obj (fun cls => GetMethodID env cls name sig)).
    intros cls w1 t1 Hp1.
    destruct (checked_throws_on_pending (env_GetMethodID env cls name sig)
                t1 w1 Hp1) as (e & w' & He & _).
    exists e, w'. exact He.
  - apply (Hobj _ _ obj
             (fun cls => GetFieldID env cls name
                           match sig with
                           | Some s => s
                           | None => JNITypeTraits_signature ty
                           end)).
    intros cls w1 t1 Hp1.
    destruct (checked_throws_on_pending
                (env_GetFieldID env cls name
                   match sig with
                   | Some s => s
                   | None => JNITypeTraits_signature ty
                   end) t1 w1 Hp1) as (e & w' & He & _).
    exists e, w'. exact He.
  - destruct (Hone _ (env_FindClass env className)) as (e & w' & He).
    exists e, w'. unfold CallStaticMethod, bind at 1.
    change (FindClass env className w = Throw e w') in He.
    rewrite He. split; reflexivity.
  - destruct (Hone _ (env_FindClass env className)) as (e & w' & He).
    exists e, w'. unfold GetStaticField, bind at 1.
    change (FindClass env className w = Throw e w') in He.
    rewrite He. split; reflexivity.
  - destruct (Hone _ (env_FindClass env className)) as (e & w' & He).
    exists e, w'. unfold NewObject, bind at 1.
    change (FindClass env className w = Throw e w') in He.
    rewrite He. split; reflexivity.
Qed.

End HelperProofs.

(* ================================================================== *)
(** ** The probes *)

(** One step of a computation: the call whose outcome decides the goal
    is named and split into its two outcomes. *)
Ltac step :=
  cbv beta iota;
  match goal with
  | |- context [match ?x with Ret _ _ => _ | Throw _ _ => _ end] =>
      lazymatch x with
      | Ret _ _ => fail
      | Throw _ _ => fail
      | match _ with _ => _ end => fail
      | _ => let a := fresh "a" in
             let w := fresh "w" in
             let e := fresh "e" in
             let E := fresh "E" in
             destruct x as [a w|e w] eqn:E
      end
  end;
  cbv beta iota.

Ltac unfold_log :=
  unfold LOGI, LOGE, android_log_print, ret, world_of in *; cbv beta iota.

Section ProbeProofs.
Context {H MID FID FS : Type}.
Variable env : JNIEnv H MID FID.
Variable libc : Libc FS.

Local Abbreviation W := (World H FS).

(** C4.  Let [name] be the class name of [PackageInfo.CREATOR] as the
    probe obtains it.  If obtaining it throws, [checkCreator] returns
    true.  Otherwise it returns false exactly when [name] is
    ["android.content.pm.PackageInfo$1"], a name that starts with
    ["android.content.pm.PackageInfo$"]. *)
Theorem checkCreator_iff (w : W) :
  match creator_class_name env (try_entry Creator w) with
  | Ret name _ =>
      exists b w',
        checkCreator env w = Ret b w'
        /\ (b = false <-> name = "android.content.pm.PackageInfo$1")
        /\ (name = "android.content.pm.PackageInfo$1" ->
            starts_with "android.content.pm.PackageInfo$" name)
  | Throw _ _ => exists w', checkCreator env w = Ret true w'
  end.
Proof.
  unfold checkCreator, checkCreator_try, creator_class_name, try_entry.
  unfold bind, try_catch. unfold_log.
  do 4 (step; [|eexists; reflexivity]).
  assert (Hpre : "android.content.pm.PackageInfo$1" = a2 ->
                 starts_with "android.content.pm.PackageInfo$" a2).
  { intros <-. exists "1". reflexivity. }
  destruct (String.eqb_spec "android.content.pm.PackageInfo$1" a2) as [Heq|Hne];
    destruct (string_find a2 "android.content.pm.PackageInfo$" =? 0) eqn:Hfind;
    cbn [negb]; cbv beta iota;
    eexists _, _; (split; [reflexivity|]); split; auto;
    try (split; congruence).
  apply Hpre, string_find_starts_with in Heq. congruence.
Qed.

(** C5.  Let [n] be the number of declared fields of the class of
    [PackageInfo.CREATOR] as the probe obtains it.  If obtaining it
    throws, [checkField] returns true.  Otherwise it returns true
    exactly when [n] is greater than zero (also when listing the field
    names throws), and so false when [n] is zero. *)
Theorem checkField_iff (w : W) :
  match declared_field_count env (try_entry Field w) with
  | Ret n _ =>
      exists b w', checkField env w = Ret b w' /\ (b = true <-> n > 0)
  | Throw _ _ => exists w', checkField env w = Ret true w'
  end.
Proof.
  unfold checkField, checkField_try, declared_field_count, try_entry.
  unfold bind, try_catch. unfold_log.
  do 4 (step; [|eexists; reflexivity]).
  destruct (Z.gtb_spec a2 0) as [Hpos|Hnonpos]; cbv beta iota.
  - step; eexists _, _; (split; [reflexivity|]); split; auto; lia.
  - eexists _, _; split; [reflexivity|]. split; [discriminate | lia].
Qed.

(** C6.  Let [seen] be what the probe obtains: the string of the
    creator, the creator's and the system class loader, and the class
    names of the two loaders.  If obtaining them throws,
    [checkCreators] returns true.  Otherwise it returns true exactly
    when the creator's string is non-empty and does not start with
    ["android.content.pm.PackageInfo$"], or one of the loaders is null,
    or the two loaders have the same class name. *)
Theorem checkCreators_iff (w : W) :
  match creators_seen env (try_entry Creators w) with
  | Ret seen _ =>
      exists b w',
        checkCreators env w = Ret b w' /\ (b = true <-> creators_tampered seen)
  | Throw _ _ => exists w', checkCreators env w = Ret true w'
  end.
Proof.
  unfold checkCreators, checkCreators_try, creators_seen, try_entry.
  unfold bind, try_catch. unfold_log.
  do 3 (step; [|eexists; reflexivity]).
  pose proof (string_find_starts_with a1 "android.content.pm.PackageInfo$")
    as Hprefix.
  destruct (String.eqb_spec a1 "") as [Hempty|Hnonempty];
    destruct (string_find a1 "android.content.pm.PackageInfo$" =? 0);
    cbn [negb]; cbv beta iota;
    do 9 (step; [|eexists; reflexivity]);
    unfold creators_tampered, is_null; cbn [seen_creatorString
      seen_creatorClassloader seen_sysClassloader
      seen_creatorClassloaderName seen_sysClassloaderName];
    destruct (Z.eqb_spec a3 nullptr) as [Hcl|Hcl];
    destruct (Z.eqb_spec a4 nullptr) as [Hsys|Hsys];
    destruct (String.eqb_spec a10 a9) as [Hsame|Hdiff];
    cbn [orb]; cbv beta iota;
    eexists _, _; (split; [reflexivity|]);
    split; auto; try discriminate;
    try (intros _; right; tauto);
    try (intros _; left; split; [assumption | rewrite <- Hprefix; discriminate]);
    intros [[Hne Hno]|[?|[?|?]]]; try congruence;
    exfalso; apply Hno; apply Hprefix; reflexivity.
Qed.

(** Every probe returns: nothing thrown in it leaves it. *)
Lemma probe_returns (context : jobject) (p : Probe) (w : W) :
  exists b w', probe env libc context p w = Ret b w'.
Proof.
  destruct p; cbn [probe];
    unfold checkCreator, checkField, checkCreators, checkPMProxy,
      checkAppComponentFactory, checkApkPaths;
    unfold bind, try_catch; unfold_log; step; eexists _, _; reflexivity.
Qed.

(** C8, as the code has it.  When an exception leaves the [try] block
    of one of the six probes, the probe catches it and returns true.
    (An exception that [getApplication] or [getApkPath] handles in its
    own [catch] never leaves the block that called it.) *)
Theorem probes_fail_closed (context : jobject) (p : Probe) (w : W)
  (e : JNIException) (w1 : W)
  (Hthrow : try_block env libc context p (try_entry p w) = Throw e w1) :
  exists w', probe env libc context p w = Ret true w'.
Proof.
  destruct p; cbn [probe try_block try_entry] in *;
    unfold checkCreator, checkField, checkCreators, checkPMProxy,
      checkAppComponentFactory, checkApkPaths;
    unfold bind, try_catch; unfold_log; rewrite Hthrow;
    eexists; reflexivity.
Qed.

(** C9.  In [checkAppComponentFactory], entered in the world [w0]:
    when [getApplication] returns null the probe returns false; when
    obtaining the application throws, [getApplication] returns null;
    when the [appComponentFactory] field is null the probe returns
    false; and when the probe returns true, either an exception left
    its [try] block or a non-null factory name was read that differs
    from ["androidx.core.app.CoreComponentFactory"]. *)
Theorem checkAppComponentFactory_skips (w : W) :
  let w0 := try_entry AppComponentFactory w in
  (forall w1,
      getApplication env w0 = Ret nullptr w1 ->
      exists w', checkAppComponentFactory env w = Ret false w')
  /\ (forall e w1,
      getApplication_try env w0 = Throw e w1 ->
      exists w', getApplication env w0 = Ret nullptr w')
  /\ (forall application w1 applicationInfo w2 w3,
      getApplication env w0 = Ret application w1 ->
      CallMethod env jobject_t application "getApplicationInfo"
        "()Landroid/content/pm/ApplicationInfo;" [] w1
      = Ret applicationInfo w2 ->
      GetField env jstring_t applicationInfo "appComponentFactory"
        (Some "Ljava/lang/String;") w2 = Ret nullptr w3 ->
      exists w', checkAppComponentFactory env w = Ret false w')
  /\ (forall w',
      checkAppComponentFactory env w = Ret true w' ->
      (exists e w1,
          checkAppComponentFactory_try env
            "androidx.core.app.CoreComponentFactory" false w0 = Throw e w1)
      \/ (exists application w1 applicationInfo w2 jFactory w3 name w4,
             getApplication env w0 = Ret application w1
             /\ application <> nullptr
             /\ CallMethod env jobject_t application "getApplicationInfo"
                  "()Landroid/content/pm/ApplicationInfo;" [] w1
                = Ret applicationInfo w2
             /\ GetField env jstring_t applicationInfo "appComponentFactory"
                  (Some "Ljava/lang/String;") w2 = Ret jFactory w3
             /\ jFactory <> nullptr
             /\ JStringToString env jFactory w3 = Ret name w4
             /\ name <> "androidx.core.app.CoreComponentFactory")).
Proof.
  cbn zeta. cbn [try_entry try_block].
  unfold checkAppComponentFactory, checkAppComponentFactory_try.
  unfold bind, try_catch. unfold_log.
  split; [|split; [|split]].
  - intros w1 Happ. rewrite Happ. cbn. eexists; reflexivity.
  - intros e w1 Hthrow. unfold getApplication, try_catch, bind. unfold_log.
    rewrite Hthrow. eexists; reflexivity.
  - intros application w1 applicationInfo w2 w3 Happ Hinfo Hfield.
    rewrite Happ. cbv beta iota.
    destruct (is_null application); cbn [negb]; cbv beta iota;
      [eexists; reflexivity|].
    rewrite Hinfo. cbv beta iota. rewrite Hfield. cbn.
    eexists; reflexivity.
  - intros w'. step; [|left; eexists _, _; reflexivity].
    unfold is_null.
    destruct (Z.eqb_spec a nullptr) as [Happ|Happ]; cbn [negb]; cbv beta iota;
      [discriminate|].
    step; [|left; eexists _, _; reflexivity].
    step; [|left; eexists _, _; reflexivity].
    destruct (Z.eqb_spec a1 nullptr) as [Hf|Hf]; cbn [negb]; cbv beta iota;
      [discriminate|].
    step; [|left; eexists _, _; reflexivity].
    destruct (String.eqb_spec a2 "androidx.core.app.CoreComponentFactory")
      as [Hname|Hname]; cbn [negb]; cbv beta iota; [discriminate|].
    intros _. right. do 8 eexists.
    repeat (split; [reflexivity || eassumption|]). assumption.
Qed.

(** C1.  [checkSignatureBypass] runs the six probes one after the
    other, each once, each in the world the one before left, whatever
    the earlier ones returned: [checkCreator], [checkField],
    [checkCreators], [checkPMProxy], [checkAppComponentFactory],
    [checkApkPaths].  It returns the disjunction of their six results,
    which is true exactly when one of them is. *)
Theorem checkSignatureBypass_or (context : jobject) (w : W) :
  exists b1 w1 b2 w2 b3 w3 b4 w4 b5 w5 b6 w6 w',
    checkCreator env
      (world_of ((LOGI "Starting native signature checks" [];;
                  LOGI "----------START-----------------" []) w))
    = Ret b1 w1
    /\ checkField env w1 = Ret b2 w2
    /\ checkCreators env w2 = Ret b3 w3
    /\ checkPMProxy env context w3 = Ret b4 w4
    /\ checkAppComponentFactory env w4 = Ret b5 w5
    /\ checkApkPaths env libc context w5 = Ret b6 w6
    /\ checkSignatureBypass env libc context w
       = Ret (b1 || b2 || b3 || b4 || b5 || b6) w'
    /\ (LOGE LF [];;
        LOGI "Native signature checks completed, suspicious: %d"
          [arg_d (if b1 || b2 || b3 || b4 || b5 || b6 then 1 else 0)];;
        LOGI "---------------END-----------------" []) w6 = Ret tt w'
    /\ (b1 || b2 || b3 || b4 || b5 || b6 = true <->
        b1 = true \/ b2 = true \/ b3 = true \/ b4 = true \/ b5 = true
        \/ b6 = true).
Proof.
  set (w0 := world_of ((LOGI "Starting native signature checks" [];;
                        LOGI "----------START-----------------" []) w)).
  destruct (probe_returns context Creator w0) as (b1 & w1 & H1).
  destruct (probe_returns context Field w1) as (b2 & w2 & H2).
  destruct (probe_returns context Creators w2) as (b3 & w3 & H3).
  destruct (probe_returns context PMProxy w3) as (b4 & w4 & H4).
  destruct (probe_returns context AppComponentFactory w4) as (b5 & w5 & H5).
  destruct (probe_returns context ApkPaths w5) as (b6 & w6 & H6).
  cbn [probe] in *.
  exists b1, w1, b2, w2, b3, w3, b4, w4, b5, w5, b6, w6.
  eexists. repeat match goal with |- _ /\ _ => split end; try eassumption.
  - unfold checkSignatureBypass.
    change (bind (LOGI "Starting native signature checks" [])
              (fun _ => bind (LOGI "----------START-----------------" []) ?k) w)
      with (k tt w0).
    cbv beta. unfold bind at 1. rewrite H1.
    unfold bind at 1. rewrite H2.
    unfold bind at 1. rewrite H3.
    unfold bind at 1. rewrite H4.
    unfold bind at 1. rewrite H5.
    unfold bind at 1. rewrite H6.
    cbn [orb]. unfold bind. unfold_log. reflexivity.
  - unfold bind. unfold_log. reflexivity.
  - rewrite !orb_true_iff. tauto.
Qed.

(** *** The file system is a frame of everything but [chmod] *)

Local Abbreviation fs_kept m := (@fs_kept H FS _ m).

Lemma fs_kept_ret {A} (a : A) : fs_kept (ret a).
Proof. intros w; reflexivity. Qed.

Lemma fs_kept_throw {A} (e : JNIException) : fs_kept (throw e : M W A).
Proof. intros w; reflexivity. Qed.

Lemma fs_kept_bind {A B} (m : M W A) (k : A -> M W B) :
  fs_kept m -> (forall a, fs_kept (k a)) -> fs_kept (bind m k).
Proof.
  intros Hm Hk w. unfold bind. specialize (Hm w).
  destruct (m w) as [a w'|e w']; simpl in Hm; [|exact Hm].
  rewrite Hk. exact Hm.
Qed.

Lemma fs_kept_try_catch {A} (body : M W A) (handler : JNIException -> M W A) :
  fs_kept body -> (forall e, fs_kept (handler e)) ->
  fs_kept (try_catch body handler).
Proof.
  intros Hm Hk w. unfold try_catch. specialize (Hm w).
  destruct (body w) as [a w'|e w']; simpl in Hm; [exact Hm|].
  rewrite Hk. exact Hm.
Qed.

Lemma fs_kept_jni {A} (call : H -> Reply H A) : fs_kept (jni call).
Proof. intros w. unfold jni. destruct (call (vm w)) as [[a r] h]. reflexivity. Qed.

Lemma fs_kept_jni_ (call : H -> H) : fs_kept (jni_ call).
Proof. intros w; reflexivity. Qed.

Lemma fs_kept_log prio tag fmt args :
  fs_kept (android_log_print prio tag fmt args).
Proof. intros w; reflexivity. Qed.

Lemma fs_kept_stat path : fs_kept (stat libc path).
Proof. intros w; reflexivity. Qed.

Lemma fs_kept_check : fs_kept (JNI_CHECK_EXCEPTION env).
Proof.
  intros w. unfold JNI_CHECK_EXCEPTION, ExceptionCheck, ExceptionDescribe, bind.
  destruct (pending w); [|reflexivity].
  destruct (env_ExceptionDescribe_clears env); reflexivity.
Qed.

Lemma fs_kept_ScopedLocalRef {A} (ref : jobject) (scope : M W A) :
  fs_kept scope -> fs_kept (ScopedLocalRef env ref scope).
Proof.
  intros Hs w. unfold ScopedLocalRef. specialize (Hs w).
  destruct (scope w) as [a w'|e w']; unfold bind;
    destruct (dtor_pending env ref w') as (w2 & -> & _ & Hfs & _);
    simpl in *; congruence.
Qed.

(** Decompose a computation into the parts above. *)
Ltac frame_step :=
  lazymatch goal with
  | |- fs_kept (ret _) => apply fs_kept_ret
  | |- fs_kept (throw _) => apply fs_kept_throw
  | |- fs_kept (jni _) => apply fs_kept_jni
  | |- fs_kept (jni_ _) => apply fs_kept_jni_
  | |- fs_kept (android_log_print _ _ _ _) => apply fs_kept_log
  | |- fs_kept (stat _ _) => apply fs_kept_stat
  | |- fs_kept (JNI_CHECK_EXCEPTION _) => apply fs_kept_check
  | |- fs_kept (bind _ _) => apply fs_kept_bind; [|intros ?]
  | |- fs_kept (try_catch _ _) => apply fs_kept_try_catch; [|intros ?]
  | |- fs_kept (ScopedLocalRef _ _ _) => apply fs_kept_ScopedLocalRef
  | |- fs_kept (if ?c then _ else _) => destruct c
  | |- fs_kept (match ?x with _ => _ end) => destruct x
  end.

Ltac frame := repeat first [assumption | frame_step].

Lemma fs_kept_JStringToString jstr : fs_kept (JStringToString env jstr).
Proof. unfold JStringToString. frame. Qed.

Lemma fs_kept_ArgsToJValues args : fs_kept (ArgsToJValues env args).
Proof.
  induction args as [|a args IH]; cbn [ArgsToJValues]; [frame|].
  unfold setJValue, StringToJString. frame.
Qed.

Lemma fs_kept_CallMethod ty obj name sig args :
  fs_kept (CallMethod env ty obj name sig args).
Proof.
  pose proof (fs_kept_ArgsToJValues args).
  unfold CallMethod, GetMethodID, JNITypeTraits_CallMethod. frame.
Qed.

Lemma fs_kept_CallStaticMethod ty cls name sig args :
  fs_kept (CallStaticMethod env ty cls name sig args).
Proof.
  pose proof (fs_kept_ArgsToJValues args).
  unfold CallStaticMethod, FindClass, GetStaticMethodID,
    JNITypeTraits_CallStaticMethod. frame.
Qed.

Lemma fs_kept_GetField ty obj name sig :
  fs_kept (GetField env ty obj name sig).
Proof. unfold GetField, GetFieldID, JNITypeTraits_GetField. frame. Qed.

Lemma fs_kept_GetStaticField ty cls name sig :
  fs_kept (GetStaticField env ty cls name sig).
Proof.
  unfold GetStaticField, FindClass, GetStaticFieldID,
    JNITypeTraits_GetStaticField. frame.
Qed.

Ltac frame_helper :=
  lazymatch goal with
  | |- fs_kept (JStringToString _ _) => apply fs_kept_JStringToString
  | |- fs_kept (CallMethod _ ?ty ?o ?n ?s ?a) =>
      exact (fs_kept_CallMethod ty o n s a)
  | |- fs_kept (CallStaticMethod _ ?ty ?c ?n ?s ?a) =>
      exact (fs_kept_CallStaticMethod ty c n s a)
  | |- fs_kept (GetField _ ?ty ?o ?n ?s) =>
      exact (fs_kept_GetField ty o n s)
  | |- fs_kept (GetStaticField _ ?ty ?c ?n ?s) =>
      exact (fs_kept_GetStaticField ty c n s)
  end.

Lemma fs_kept_checkField_loop fieldArray i n :
  fs_kept (checkField_loop env fieldArray i n).
Proof.
  revert i; induction n as [|n IH]; intros i; cbn [checkField_loop];
    unfold LOGE; repeat first [frame_step | frame_helper]. apply IH.
Qed.

Lemma fs_kept_getApplication : fs_kept (getApplication env).
Proof.
  unfold getApplication, getApplication_try, LOGE.
  repeat first [frame_step | frame_helper].
Qed.

Lemma fs_kept_getApkPath context : fs_kept (getApkPath env context).
Proof.
  unfold getApkPath, getApkPath_try, LOGE.
  repeat first [frame_step | frame_helper].
Qed.

Ltac frame_probe :=
  unfold LOGI, LOGE;
  repeat first
    [ frame_step
    | frame_helper
    | lazymatch goal with
      | |- fs_kept (checkField_loop _ _ _ _) => apply fs_kept_checkField_loop
      | |- fs_kept (getApplication _) => apply fs_kept_getApplication
      | |- fs_kept (getApkPath _ _) => apply fs_kept_getApkPath
      end ].

Lemma fs_kept_checkApkPaths_paths context :
  fs_kept (checkApkPaths_paths env context).
Proof. unfold checkApkPaths_paths. frame_probe. Qed.

(** The probes other than [checkApkPaths] make no call that reaches
    the file system. *)
Lemma fs_kept_probe (context : jobject) (p : Probe) :
  p <> ApkPaths -> fs_kept (probe env libc context p).
Proof.
  destruct p; intros Hp; try congruence; cbn [probe];
    unfold checkCreator, checkCreator_try, checkField, checkField_try,
      checkCreators, checkCreators_try, checkPMProxy, checkPMProxy_try,
      checkAppComponentFactory, checkAppComponentFactory_try;
    frame_probe.
Qed.

(** *** The checks of [checkApkPaths] *)

Lemma checkApkPaths_same_spec (paths0 : string) (rest : list string)
  (a s : bool) (w : W) :
  exists a' s' w',
    checkApkPaths_same paths0 rest a s w = Ret (a', s') w'
    /\ fs w' = fs w
    /\ (s' = true <-> s = true \/ exists p, In p rest /\ p <> paths0).
Proof.
  induction rest as [|path rest IH]; cbn [checkApkPaths_same].
  - exists a, s, w. repeat split; auto. intros [Hs|(p & [] & _)]; exact Hs.
  - destruct (String.eqb_spec path paths0) as [Heq|Hne]; cbn [negb].
    + destruct IH as (a' & s' & w' & Hrun & Hfs & Hiff).
      exists a', s', w'. repeat split; auto.
      * intros Hs'. apply Hiff in Hs' as [Hs|(p & Hin & Hp)]; auto.
        right; exists p; split; [right|]; assumption.
      * intros [Hs|(p & [<-|Hin] & Hp)]; apply Hiff; auto;
          solve [congruence | right; exists p; auto].
    + unfold bind. unfold_log. eexists _, _, _. repeat split; auto.
      intros _. right. exists path. split; [left; reflexivity | exact Hne].
Qed.

Lemma checkApkPaths_start_spec (paths : list string) (a s : bool) (w : W) :
  exists a' s' w',
    checkApkPaths_start paths a s w = Ret (a', s') w'
    /\ fs w' = fs w
    /\ (s' = true <->
        s = true \/ exists p, In p paths /\ ~ starts_with "/data/app/" p).
Proof.
  induction paths as [|path rest IH]; cbn [checkApkPaths_start].
  - exists a, s, w. repeat split; auto. intros [Hs|(p & [] & _)]; exact Hs.
  - pose proof (string_find_starts_with path "/data/app/") as Hstart.
    destruct (string_find path "/data/app/" =? 0); cbn [negb].
    + destruct IH as (a' & s' & w' & Hrun & Hfs & Hiff).
      exists a', s', w'. repeat split; auto.
      * intros Hs'. apply Hiff in Hs' as [Hs|(p & Hin & Hp)]; auto.
        right; exists p; split; [right|]; assumption.
      * intros [Hs|(p & [<-|Hin] & Hp)]; apply Hiff; auto;
          solve [exfalso; apply Hp, Hstart; reflexivity | right; exists p; auto].
    + unfold bind. unfold_log. eexists _, _, _. repeat split; auto.
      intros _. right. exists path. split; [left; reflexivity|].
      rewrite <- Hstart. discriminate.
Qed.

Lemma checkApkPaths_end_spec (paths : list string) (a s : bool) (w : W) :
  exists a' s' w',
    checkApkPaths_end paths a s w = Ret (a', s') w'
    /\ fs w' = fs w
    /\ (s' = true <->
        s = true \/ exists p, In p paths /\ ~ ends_with "/base.apk" p).
Proof.
  induction paths as [|path rest IH]; cbn [checkApkPaths_end].
  - exists a, s, w. repeat split; auto. intros [Hs|(p & [] & _)]; exact Hs.
  - pose proof (substr_ends_with "/base.apk" path) as Hend.
    change (string_length "/base.apk") with 9 in Hend.
    destruct ((string_length path <? 9)
              || negb (string_substr path (string_length path - 9)
                       =? "/base.apk")%string).
    + unfold bind. unfold_log. eexists _, _, _. repeat split; auto.
      intros _. right. exists path. split; [left; reflexivity|].
      rewrite <- Hend. discriminate.
    + destruct IH as (a' & s' & w' & Hrun & Hfs & Hiff).
      exists a', s', w'. repeat split; auto.
      * intros Hs'. apply Hiff in Hs' as [Hs|(p & Hin & Hp)]; auto.
        right; exists p; split; [right|]; assumption.
      * intros [Hs|(p & [<-|Hin] & Hp)]; apply Hiff; auto;
          solve [exfalso; apply Hp, Hend; reflexivity | right; exists p; auto].
Qed.

(** One path of the last loop: the flag is raised exactly when the
    file is tampered with, and the file system changes only when the
    [chmod] to 0777 succeeds. *)
Lemma checkApkPaths_stat_path_spec (path : string) (s : bool) (w : W) :
  exists b w',
    checkApkPaths_stat_path libc path s w = Ret b w'
    /\ (b = true <-> s = true \/ file_tampered libc (fs w) path)
    /\ (libc_chmod libc path (octal 7 7 7) (fs w) = None -> fs w' = fs w).
Proof.
  unfold checkApkPaths_stat_path, file_tampered, permission_bits.
  unfold bind, stat, chmod. unfold_log.
  destruct (libc_stat libc path (fs w)) as [st|errno] eqn:Hstat.
  - cbv zeta.
    destruct (Z.eqb_spec (Z.land (st_mode st) (octal 7 7 7)) (octal 6 4 4))
      as [Hperm|Hperm];
      destruct (Z.eqb_spec (st_uid st) 1000) as [Huid|Huid];
      cbn [negb]; cbv beta iota; cbn [fs];
      destruct (libc_chmod libc path (octal 7 7 7) (fs w)) as [d|] eqn:Hchmod;
      cbv beta iota; cbn [Z.eqb fs];
      try (destruct (libc_chmod libc path (octal 6 4 4) d); cbv beta iota);
      eexists _, _; (split; [reflexivity|]); (split; [|cbn [fs]; congruence]);
      split; auto;
      try (intros _; right; right; right; discriminate);
      try (intros _; right; right; left; exists st; split; [reflexivity|];
           tauto);
      intros [Hs|[(errno & Herr)|[(st' & Hst & Hbad)|Hch]]];
      try assumption; try discriminate; try congruence;
      injection Hst as <-; tauto.
  - eexists _, _. split; [reflexivity|]. split; [|reflexivity].
    split; auto. intros _. right. left. exists errno. reflexivity.
Qed.

Lemma checkApkPaths_stat_spec (paths : list string) (s : bool) (w : W) :
  exists b w',
    checkApkPaths_stat libc paths s w = Ret b w'
    /\ (b = true <->
        s = true \/ exists p, In p paths /\ file_tampered libc (fs w) p)
    /\ ((forall p, In p paths ->
                   libc_chmod libc p (octal 7 7 7) (fs w) = None) ->
        fs w' = fs w).
Proof.
  revert s w; induction paths as [|path rest IH]; intros s w;
    cbn [checkApkPaths_stat].
  - exists s, w. repeat split; auto. intros [Hs|(p & [] & _)]; exact Hs.
  - unfold bind.
    destruct (checkApkPaths_stat_path_spec path s w)
      as (b1 & w1 & -> & Hb1 & Hfs1).
    destruct (IH b1 w1) as (b & w' & Hrun & Hb & Hfs).
    exists b, w'. split; [exact Hrun|].
    destruct (libc_chmod libc path (octal 7 7 7) (fs w)) as [d|] eqn:Hchmod.
    + (* the chmod succeeded: the flag is up whatever follows *)
      assert (Htamp : file_tampered libc (fs w) path).
      { right; right. rewrite Hchmod. discriminate. }
      split.
      * split.
        -- intros _. right. exists path. split; [left; reflexivity | exact Htamp].
        -- intros _. apply Hb. left. apply Hb1. right. exact Htamp.
      * intros Hnone. rewrite (Hnone path) in Hchmod; [discriminate|].
        left; reflexivity.
    + specialize (Hfs1 eq_refl). rewrite Hfs1 in Hb, Hfs.
      split.
      * split.
        -- intros Hbt. apply Hb in Hbt as [Hb1t|(p & Hin & Hp)].
           ++ apply Hb1 in Hb1t as [Hs|Hp]; auto.
              right; exists path; split; [left; reflexivity | exact Hp].
           ++ right; exists p; split; [right|]; assumption.
        -- intros [Hs|(p & [<-|Hin] & Hp)]; apply Hb.
           ++ left; apply Hb1; auto.
           ++ left; apply Hb1; auto.
           ++ right; exists p; auto.
      * intros Hnone. apply Hfs.
        intros p Hin. apply Hnone. right; exact Hin.
Qed.

Lemma paths_tampered_split (d : FS) (paths : list string) :
  paths_tampered libc d paths <->
  (exists p, In p (tl paths) /\ p <> hd "" paths)
  \/ (exists p, In p paths /\ ~ starts_with "/data/app/" p)
  \/ (exists p, In p paths /\ ~ ends_with "/base.apk" p)
  \/ (exists p, In p paths /\ file_tampered libc d p).
Proof.
  unfold paths_tampered, file_tampered. split.
  - intros [(p & Hin & Hp)|[Hs|[He|[(p & errno & Hin & Hp)|
             [(p & st & Hin & Hst & Hp)|(p & Hin & Hp)]]]]]; auto.
    + left. exists p. split; [|exact Hp].
      destruct paths as [|p0 rest]; [destruct Hin|].
      destruct Hin as [<-|Hin]; [cbn in Hp; congruence | exact Hin].
    + do 3 right. exists p. split; [exact Hin|]. left. exists errno; exact Hp.
    + do 3 right. exists p. split; [exact Hin|]. right; left.
      exists st; split; assumption.
    + do 3 right. exists p. split; [exact Hin|]. right; right. exact Hp.
  - intros [(p & Hin & Hp)|[Hs|[He|(p & Hin & [(errno & Hp)|[(st & Hst & Hp)|Hp]])]]];
      auto.
    + left. exists p. split; [|exact Hp].
      destruct paths as [|p0 rest]; [destruct Hin | right; exact Hin].
    + do 3 right. left. exists p, errno. split; assumption.
    + do 4 right. left. exists p, st. repeat split; assumption.
    + do 5 right. exists p. split; assumption.
Qed.

(** The checks on a gathered vector of paths. *)
Lemma checkApkPaths_checks_spec (paths : list string) (w : W) :
  exists b w',
    checkApkPaths_checks libc paths false w = Ret b w'
    /\ (b = true <-> paths_tampered libc (fs w) paths)
    /\ ((forall p, In p paths ->
                   libc_chmod libc p (octal 7 7 7) (fs w) = None) ->
        fs w' = fs w).
Proof.
  unfold checkApkPaths_checks, bind.
  destruct (checkApkPaths_same_spec (hd "" paths) (tl paths) true false w)
    as (a1 & s1 & w1 & -> & Hfs1 & Hs1).
  cbv beta iota. destruct a1; cbn [negb]; unfold_log;
    (match goal with
     | |- context [checkApkPaths_start ?p ?a ?s ?w0] =>
         destruct (checkApkPaths_start_spec p a s w0)
           as (a2 & s2 & w2 & -> & Hfs2 & Hs2)
     end);
    cbn [fs] in Hfs2; cbv beta iota; destruct a2; cbn [negb]; cbv beta iota;
    (match goal with
     | |- context [checkApkPaths_end ?p ?a ?s ?w0] =>
         destruct (checkApkPaths_end_spec p a s w0)
           as (a3 & s3 & w3 & -> & Hfs3 & Hs3)
     end);
    cbn [fs] in Hfs3; cbv beta iota; destruct a3; cbn [negb]; cbv beta iota;
    (match goal with
     | |- context [checkApkPaths_stat ?l ?p ?s ?w0] =>
         destruct (checkApkPaths_stat_spec p s w0) as (b & w' & Hrun & Hb & Hfs)
     end);
    cbn [fs] in Hb, Hfs; rewrite Hfs3, Hfs2, Hfs1 in Hb, Hfs;
    exists b, w'; (split; [exact Hrun|]);
    (split; [|intros Hnone; rewrite (Hfs Hnone); congruence]);
    rewrite paths_tampered_split, Hb, Hs3, Hs2, Hs1;
    intuition discriminate.
Qed.

(** The vector the code gathers is the collected paths of the
    specification. *)
Lemma checkApkPaths_paths_seen (context : jobject) (w : W) :
  match apk_paths_seen env context w with
  | Ret (five, nativeApkPath) w1 =>
      checkApkPaths_paths env context w
      = Ret (collected_paths five nativeApkPath) w1
  | Throw e w1 => checkApkPaths_paths env context w = Throw e w1
  end.
Proof.
  unfold checkApkPaths_paths, apk_paths_seen, apk_paths_five, getApkPath,
    getApkPath_try, native_lookup, collected_paths.
  unfold bind, try_catch. unfold_log.
  do 14 (step; [|reflexivity]).
  repeat step;
    cbn [seen_resourcePath seen_codePath seen_sourceDir seen_publicSourceDir
         seen_packageInfoSourceDir];
    try match goal with
        | |- context [(?n =? "")%string] => destruct (n =? "")%string
        end;
    reflexivity.
Qed.

(** C3, as the code has it.  Let the probe have gathered the package
    resource path, the package code path, [sourceDir] and
    [publicSourceDir] of the [ApplicationInfo], the [sourceDir]
    obtained through the [PackageManager], and the native APK path,
    which is empty when its lookup throws inside [getApkPath].  If
    gathering the first five throws, [checkApkPaths] returns true.
    Otherwise it returns true exactly when, in the file system it was
    called in, for the five paths and the native one when it is not
    empty, some path differs from the first, or does not start with
    ["/data/app/"], or does not end with ["/base.apk"], or cannot be
    stat-ed, or has permission bits other than 0644 or an owner other
    than 1000, or can be chmod-ed to 0777. *)
Theorem checkApkPaths_iff (context : jobject) (w : W) :
  match apk_paths_seen env context (try_entry ApkPaths w) with
  | Ret (five, nativeApkPath) _ =>
      exists b w',
        checkApkPaths env libc context w = Ret b w'
        /\ (b = true <->
            paths_tampered libc (fs w) (collected_paths five nativeApkPath))
  | Throw _ _ => exists w', checkApkPaths env libc context w = Ret true w'
  end.
Proof.
  cbn [try_entry].
  pose proof (fs_kept_checkApkPaths_paths context w) as Hfs.
  pose proof (checkApkPaths_paths_seen context w) as Hseen.
  unfold checkApkPaths, checkApkPaths_try.
  unfold bind, try_catch.
  destruct (apk_paths_seen env context w) as [[five nativeApkPath] w1|e w1];
    rewrite Hseen in *; cbn [world_of] in Hfs.
  - destruct (checkApkPaths_checks_spec (collected_paths five nativeApkPath) w1)
      as (b & w' & -> & Hb & _).
    unfold_log. rewrite Hfs in Hb. eexists _, _. split; [reflexivity | exact Hb].
  - unfold_log. eexists; reflexivity.
Qed.

(** The five probes other than [checkApkPaths] leave the file system
    as they found it.  [checkApkPaths] leaves it as it found it
    whenever [chmod] to 0777 succeeds on none of the gathered paths,
    and so whenever it returns false. *)
Lemma probes_keep_file_system (context : jobject) (w : W) :
  (forall p, p <> ApkPaths ->
             fs (world_of (probe env libc context p w)) = fs w)
  /\ (forall paths w1,
      checkApkPaths_paths env context w = Ret paths w1 ->
      (forall p, In p paths ->
                 libc_chmod libc p (octal 7 7 7) (fs w) = None) ->
      fs (world_of (checkApkPaths env libc context w)) = fs w)
  /\ (forall w', checkApkPaths env libc context w = Ret false w' ->
                 fs w' = fs w).
Proof.
  assert (Hrun : forall paths w1,
             checkApkPaths_paths env context w = Ret paths w1 ->
             exists b w',
               checkApkPaths env libc context w = Ret b w'
               /\ (b = true <-> paths_tampered libc (fs w) paths)
               /\ ((forall p, In p paths ->
                      libc_chmod libc p (octal 7 7 7) (fs w) = None) ->
                   fs w' = fs w)).
  { intros paths w1 Hpaths.
    pose proof (fs_kept_checkApkPaths_paths context w) as Hfs.
    unfold checkApkPaths, checkApkPaths_try, bind, try_catch.
    rewrite Hpaths in *. cbn [world_of] in Hfs.
    destruct (checkApkPaths_checks_spec paths w1)
      as (b & w' & -> & Hb & Hkeep).
    unfold_log. rewrite Hfs in Hb, Hkeep. eexists _, _.
    split; [reflexivity|]. split; [exact Hb | exact Hkeep]. }
  split; [|split].
  - intros p Hp. apply fs_kept_probe. exact Hp.
  - intros paths w1 Hpaths Hnone.
    destruct (Hrun paths w1 Hpaths) as (b & w' & -> & _ & Hkeep).
    apply Hkeep, Hnone.
  - intros w' Hfalse.
    destruct (checkApkPaths_paths env context w) as [paths w1|e w1] eqn:Hpaths.
    + destruct (Hrun paths w1 eq_refl) as (b & w2 & Hrun2 & Hb & Hkeep).
      rewrite Hfalse in Hrun2. injection Hrun2 as <- <-.
      apply Hkeep. intros p Hin.
      destruct (libc_chmod libc p (octal 7 7 7) (fs w)) eqn:Hchmod;
        [|reflexivity].
      assert (false = true); [|discriminate].
      apply Hb. do 5 right. exists p. split; [exact Hin|].
      rewrite Hchmod. discriminate.
    + unfold checkApkPaths, checkApkPaths_try, bind, try_catch in Hfalse.
      rewrite Hpaths in Hfalse. unfold_log. discriminate.
Qed.

(** *** What a probe does to the runtime and to the log *)

Section Confined.
Variable Q : W -> W -> Prop.
Hypothesis Q_refl : forall w, Q w w.
Hypothesis Q_trans : forall w1 w2 w3, Q w1 w2 -> Q w2 w3 -> Q w1 w3.
Hypothesis Q_jni :
  forall A (call : H -> Reply H A), entry env A call ->
  forall w, Q w (world_of (jni call w)).
Hypothesis Q_quiet :
  forall call, quiet_entry env call -> forall w, Q w (world_of (jni_ call w)).
Hypothesis Q_clear : forall w, Q w (clear_pending w).
Hypothesis Q_log :
  forall prio tag fmt args w,
    Q w (world_of (android_log_print prio tag fmt args w)).
Hypothesis Q_fs :
  forall w d, Q w {| vm := vm w; pending := pending w; fs := d;
                     logcat := logcat w |}.

Local Abbreviation conf m := (@confined H FS Q _ m).

Lemma conf_ret {A} (a : A) : conf (ret a).
Proof. intros w; apply Q_refl. Qed.

Lemma conf_throw {A} (e : JNIException) : conf (throw e : M W A).
Proof. intros w; apply Q_refl. Qed.

Lemma conf_bind {A B} (m : M W A) (k : A -> M W B) :
  conf m -> (forall a, conf (k a)) -> conf (bind m k).
Proof.
  intros Hm Hk w. unfold bind. specialize (Hm w).
  destruct (m w) as [a w'|e w']; cbn [world_of] in Hm; [|exact Hm].
  eapply Q_trans; [exact Hm | apply Hk].
Qed.

Lemma conf_try_catch {A} (body : M W A) (handler : JNIException -> M W A) :
  conf body -> (forall e, conf (handler e)) -> conf (try_catch body handler).
Proof.
  intros Hm Hk w. unfold try_catch. specialize (Hm w).
  destruct (body w) as [a w'|e w']; cbn [world_of] in Hm; [exact Hm|].
  eapply Q_trans; [exact Hm | apply Hk].
Qed.

Lemma conf_stat path : conf (stat libc path).
Proof. intros w; apply Q_refl. Qed.

Lemma conf_chmod path mode : conf (chmod libc path mode).
Proof.
  intros w. unfold chmod.
  destruct (libc_chmod libc path mode (fs w)); [apply Q_fs | apply Q_refl].
Qed.

Lemma conf_check : conf (JNI_CHECK_EXCEPTION env).
Proof.
  intros w. unfold JNI_CHECK_EXCEPTION, ExceptionCheck, ExceptionDescribe, bind.
  destruct (pending w); [|apply Q_refl].
  destruct (env_ExceptionDescribe_clears env); cbn; [|apply Q_clear].
  eapply Q_trans; apply Q_clear.
Qed.

Lemma conf_ScopedLocalRef {A} (ref : jobject) (scope : M W A) :
  conf scope -> conf (ScopedLocalRef env ref scope).
Proof.
  intros Hs w.
  assert (Hd : forall w1, Q w1 (world_of (ScopedLocalRef_dtor env ref w1))).
  { intros w1. unfold ScopedLocalRef_dtor.
    destruct (is_null ref); [apply Q_refl | apply Q_quiet; constructor]. }
  unfold ScopedLocalRef. specialize (Hs w).
  destruct (scope w) as [a w'|e w']; cbn [world_of] in Hs; unfold bind;
    specialize (Hd w');
    destruct (ScopedLocalRef_dtor env ref w') as [[] w2|e2 w2];
    cbn [world_of] in *; eapply Q_trans; eassumption.
Qed.

Ltac conf_step :=
  lazymatch goal with
  | |- conf (ret _) => apply conf_ret
  | |- conf (throw _) => apply conf_throw
  | |- conf (jni _) => intros ?; apply Q_jni; constructor
  | |- conf (jni_ _) => intros ?; apply Q_quiet; constructor
  | |- conf (android_log_print _ _ _ _) => intros ?; apply Q_log
  | |- conf (stat _ _) => apply conf_stat
  | |- conf (chmod _ _ _) => apply conf_chmod
  | |- conf (JNI_CHECK_EXCEPTION _) => apply conf_check
  | |- conf (bind _ _) => apply conf_bind; [|intros ?]
  | |- conf (try_catch _ _) => apply conf_try_catch; [|intros ?]
  | |- conf (ScopedLocalRef _ _ _) => apply conf_ScopedLocalRef
  | |- conf (if ?c then _ else _) => destruct c
  | |- conf (match ?x with _ => _ end) => destruct x
  end.

Lemma conf_JStringToString jstr : conf (JStringToString env jstr).
Proof. unfold JStringToString. repeat conf_step. Qed.

Lemma conf_ArgsToJValues args : conf (ArgsToJValues env args).
Proof.
  induction args as [|a args IH]; cbn [ArgsToJValues]; [apply conf_ret|].
  unfold setJValue, StringToJString. repeat first [exact IH | conf_step].
Qed.

Lemma conf_CallMethod ty obj name sig args :
  conf (CallMethod env ty obj name sig args).
Proof.
  pose proof (conf_ArgsToJValues args) as Hargs.
  unfold CallMethod, GetMethodID, JNITypeTraits_CallMethod.
  repeat first [exact Hargs | conf_step].
Qed.

Lemma conf_CallStaticMethod ty cls name sig args :
  conf (CallStaticMethod env ty cls name sig args).
Proof.
  pose proof (conf_ArgsToJValues args) as Hargs.
  unfold CallStaticMethod, FindClass, GetStaticMethodID,
    JNITypeTraits_CallStaticMethod.
  repeat first [exact Hargs | conf_step].
Qed.

Lemma conf_GetField ty obj name sig : conf (GetField env ty obj name sig).
Proof.
  unfold GetField, GetFieldID, JNITypeTraits_GetField. repeat conf_step.
Qed.

Lemma conf_GetStaticField ty cls name sig :
  conf (GetStaticField env ty cls name sig).
Proof.
  unfold GetStaticField, FindClass, GetStaticFieldID,
    JNITypeTraits_GetStaticField.
  repeat conf_step.
Qed.

Ltac conf_helper :=
  lazymatch goal with
  | |- conf (JStringToString _ _) => apply conf_JStringToString
  | |- conf (CallMethod _ ?ty ?o ?n ?s ?a) => exact (conf_CallMethod ty o n s a)
  | |- conf (CallStaticMethod _ ?ty ?c ?n ?s ?a) =>
      exact (conf_CallStaticMethod ty c n s a)
  | |- conf (GetField _ ?ty ?o ?n ?s) => exact (conf_GetField ty o n s)
  | |- conf (GetStaticField _ ?ty ?c ?n ?s) =>
      exact (conf_GetStaticField ty c n s)
  end.

Lemma conf_checkField_loop fieldArray i n :
  conf (checkField_loop env fieldArray i n).
Proof.
  revert i; induction n as [|n IH]; intros i; cbn [checkField_loop];
    unfold LOGE; repeat first [conf_step | conf_helper]. apply IH.
Qed.

Lemma conf_getApplication : conf (getApplication env).
Proof.
  unfold getApplication, getApplication_try, LOGE.
  repeat first [conf_step | conf_helper].
Qed.

Lemma conf_getApkPath context : conf (getApkPath env context).
Proof.
  unfold getApkPath, getApkPath_try, LOGE.
  repeat first [conf_step | conf_helper].
Qed.

Lemma conf_checkApkPaths_same paths0 rest a s :
  conf (checkApkPaths_same paths0 rest a s).
Proof.
  induction rest as [|path rest IH]; cbn [checkApkPaths_same]; unfold LOGE;
    repeat first [exact IH | conf_step].
Qed.

Lemma conf_checkApkPaths_start paths a s :
  conf (checkApkPaths_start paths a s).
Proof.
  induction paths as [|path rest IH]; cbn [checkApkPaths_start]; unfold LOGE;
    repeat first [exact IH | conf_step].
Qed.

Lemma conf_checkApkPaths_end paths a s :
  conf (checkApkPaths_end paths a s).
Proof.
  induction paths as [|path rest IH]; cbn [checkApkPaths_end]; unfold LOGE;
    repeat first [exact IH | conf_step].
Qed.

Lemma conf_checkApkPaths_stat paths s :
  conf (checkApkPaths_stat libc paths s).
Proof.
  revert s; induction paths as [|path rest IH]; intros s;
    cbn [checkApkPaths_stat]; [apply conf_ret|].
  apply conf_bind; [|intros b; apply IH].
  unfold checkApkPaths_stat_path, LOGI, LOGE. cbv zeta. repeat conf_step.
Qed.

Ltac conf_probe :=
  unfold LOGI, LOGE;
  repeat first
    [ conf_step
    | conf_helper
    | lazymatch goal with
      | |- conf (checkField_loop _ _ _ _) => apply conf_checkField_loop
      | |- conf (getApplication _) => apply conf_getApplication
      | |- conf (getApkPath _ _) => apply conf_getApkPath
      | |- conf (checkApkPaths_same _ _ _ _) => apply conf_checkApkPaths_same
      | |- conf (checkApkPaths_start _ _ _) => apply conf_checkApkPaths_start
      | |- conf (checkApkPaths_end _ _ _) => apply conf_checkApkPaths_end
      | |- conf (checkApkPaths_stat _ _ _) => apply conf_checkApkPaths_stat
      end ].

Lemma conf_probe_all (context : jobject) (p : Probe) :
  conf (probe env libc context p).
Proof.
  destruct p; cbn [probe];
    unfold checkCreator, checkCreator_try, checkField, checkField_try,
      checkCreators, checkCreators_try, checkPMProxy, checkPMProxy_try,
      checkAppComponentFactory, checkAppComponentFactory_try,
      checkApkPaths, checkApkPaths_try, checkApkPaths_paths,
      checkApkPaths_checks;
    conf_probe.
Qed.

End Confined.

Lemma Respected_entry (R : Runtime -> Runtime -> Prop) :
  Respected env R ->
  forall A (call : H -> Reply H A), entry env A call ->
  forall h p, R (h, p) (after_call (call h) p).
Proof.
  intros HR A call Hentry. destruct HR.
  destruct Hentry; intros h p; auto.
Qed.


(** *** Further properties of the probes *)

Ltac split_if :=
  match goal with
  | |- context [if ?c then _ else _] =>
      lazymatch type of c with
      | bool => destruct c eqn:?
      end
  end;
  cbv beta iota.

(** X1.  Let [name] be the class name of the [mPM] field of the
    package manager as the probe obtains it.  If obtaining it throws,
    [checkPMProxy] returns true.  Otherwise it returns false exactly
    when [name] is ["android.content.pm.IPackageManager$Stub$Proxy"]. *)
Theorem checkPMProxy_iff (context : jobject) (w : W) :
  match pm_proxy_class_name env context (try_entry PMProxy w) with
  | Ret name _ =>
      exists b w',
        checkPMProxy env context w = Ret b w'
        /\ (b = false <->
            name = "android.content.pm.IPackageManager$Stub$Proxy")
  | Throw _ _ => exists w', checkPMProxy env context w = Ret true w'
  end.
Proof.
  unfold checkPMProxy, checkPMProxy_try, pm_proxy_class_name, try_entry.
  unfold bind, try_catch, jni_. unfold_log.
  do 9 (step; [|eexists; reflexivity]).
  destruct (String.eqb_spec "android.content.pm.IPackageManager$Stub$Proxy" a7)
    as [Heq|Hne]; cbn [negb]; cbv beta iota;
    eexists _, _; (split; [reflexivity|]); split; congruence.
Qed.

(** X2.  Let the probe have found no application, or an application
    without factory, or the factory name [name].  If finding out
    throws, [checkAppComponentFactory] returns true.  In the first two
    cases it returns false.  With a name it returns true exactly when
    the name is not ["androidx.core.app.CoreComponentFactory"]. *)
Theorem checkAppComponentFactory_iff (w : W) :
  match app_component_factory_seen env (try_entry AppComponentFactory w) with
  | Ret NoApplication _ =>
      exists w', checkAppComponentFactory env w = Ret false w'
  | Ret NoFactory _ =>
      exists w', checkAppComponentFactory env w = Ret false w'
  | Ret (Factory name) _ =>
      exists b w',
        checkAppComponentFactory env w = Ret b w'
        /\ (b = true <-> name <> "androidx.core.app.CoreComponentFactory")
  | Throw _ _ => exists w', checkAppComponentFactory env w = Ret true w'
  end.
Proof.
  unfold checkAppComponentFactory, checkAppComponentFactory_try,
    app_component_factory_seen, try_entry.
  unfold bind, try_catch. unfold_log.
  step; [|eexists; reflexivity].
  destruct (is_null a); cbn [negb]; cbv beta iota; [eexists; reflexivity|].
  do 2 (step; [|eexists; reflexivity]).
  destruct (is_null a1); cbn [negb]; cbv beta iota; [eexists; reflexivity|].
  step; [|eexists; reflexivity].
  destruct (String.eqb_spec a2 "androidx.core.app.CoreComponentFactory")
    as [Heq|Hne]; cbn [negb]; cbv beta iota;
    eexists _, _; (split; [reflexivity|]); split; congruence.
Qed.

(** X3.  [getApplication] always returns, and when it has returned no
    managed exception is pending, whatever was pending before. *)
Theorem getApplication_settled (w : W) :
  exists application w',
    getApplication env w = Ret application w' /\ pending w' = None.
Proof.
  assert (Hs : settles (getApplication_try env : M W _)).
  { apply settles_bind.
    - apply settles_throws_clean.
      exact (settles_CallStaticMethod env jobject_t _ _ _ _).
    - intros activityThread.
      exact (settles_GetField env jobject_t activityThread _ _). }
  destruct (Hs w) as [Hset _]. unfold settled in Hset.
  unfold getApplication, try_catch.
  destruct (getApplication_try env w) as [a w1|e w1]; cbn [world_of] in Hset.
  - exists a, w1. split; [reflexivity | exact Hset].
  - unfold bind. unfold_log. eexists _, _. split; [reflexivity | exact Hset].
Qed.

Lemma checkSignatureBypass_run (context : jobject) (w : W) :
  exists b1 (w1 : W) b2 (w2 : W) b3 (w3 : W) b4 (w4 : W) b5 (w5 : W) b6
         (w6 w' : W),
    checkCreator env
      (world_of ((LOGI "Starting native signature checks" [];;
                  LOGI "----------START-----------------" []) w))
    = Ret b1 w1
    /\ fs w1 = fs w /\ fs w2 = fs w1 /\ fs w3 = fs w2 /\ fs w4 = fs w3
    /\ fs w5 = fs w4
    /\ checkApkPaths env libc context w5 = Ret b6 w6
    /\ checkSignatureBypass env libc context w
       = Ret (b1 || b2 || b3 || b4 || b5 || b6) w'
    /\ fs w' = fs w6.
Proof.
  set (w0 := world_of ((LOGI "Starting native signature checks" [];;
                        LOGI "----------START-----------------" []) w)).
  assert (Hfs : forall p b (wa wb : W),
             p <> ApkPaths -> probe env libc context p wa = Ret b wb ->
             fs wb = fs wa).
  { intros p b wa wb Hp Hrun.
    pose proof (fs_kept_probe context p Hp wa) as Hk.
    rewrite Hrun in Hk. exact Hk. }
  destruct (probe_returns context Creator w0) as (b1 & w1 & H1).
  destruct (probe_returns context Field w1) as (b2 & w2 & H2).
  destruct (probe_returns context Creators w2) as (b3 & w3 & H3).
  destruct (probe_returns context PMProxy w3) as (b4 & w4 & H4).
  destruct (probe_returns context AppComponentFactory w4) as (b5 & w5 & H5).
  destruct (probe_returns context ApkPaths w5) as (b6 & w6 & H6).
  exists b1, w1, b2, w2, b3, w3, b4, w4, b5, w5, b6, w6.
  eexists.
  split; [exact H1|].
  split; [apply (Hfs Creator b1 w0 w1); [discriminate | exact H1]|].
  split; [apply (Hfs Field b2); [discriminate | exact H2]|].
  split; [apply (Hfs Creators b3); [discriminate | exact H3]|].
  split; [apply (Hfs PMProxy b4); [discriminate | exact H4]|].
  split; [apply (Hfs AppComponentFactory b5); [discriminate | exact H5]|].
  cbn [probe] in *.
  split; [exact H6|].
  split.
  - unfold checkSignatureBypass.
    change (bind (LOGI "Starting native signature checks" [])
              (fun _ => bind (LOGI "----------START-----------------" []) ?k) w)
      with (k tt w0).
    cbv beta. unfold bind at 1. rewrite H1.
    unfold bind at 1. rewrite H2.
    unfold bind at 1. rewrite H3.
    unfold bind at 1. rewrite H4.
    unfold bind at 1. rewrite H5.
    unfold bind at 1. rewrite H6.
    cbn [orb]. unfold bind. unfold_log. reflexivity.
  - reflexivity.
Qed.

(** X4.  No exception leaves a function of [SignatureCheck.hpp]:
    [getApplication], [getApkPath], [getAppComponentFactory], each of
    the six probes and [checkSignatureBypass] always return. *)
Theorem nothing_escapes (context : jobject) :
  returns (getApplication env : M W _)
  /\ returns (getApkPath env context : M W _)
  /\ returns (getAppComponentFactory env context : M W _)
  /\ (forall p, returns (probe env libc context p))
  /\ returns (checkSignatureBypass env libc context).
Proof.
  repeat match goal with |- _ /\ _ => split end.
  - intros w. unfold getApplication, try_catch. step.
    + eexists _, _; reflexivity.
    + unfold bind. unfold_log. eexists _, _; reflexivity.
  - intros w. unfold getApkPath, try_catch. step.
    + eexists _, _; reflexivity.
    + unfold bind. unfold_log. eexists _, _; reflexivity.
  - intros w. unfold getAppComponentFactory. unfold bind at 1.
    unfold try_catch. step.
    + destruct a; unfold ret; eexists _, _; reflexivity.
    + unfold bind. unfold_log. eexists _, _; reflexivity.
  - intros p w. apply probe_returns.
  - intros w.
    destruct (checkSignatureBypass_run context w)
      as (b1 & w1 & b2 & w2 & b3 & w3 & b4 & w4 & b5 & w5 & b6 & w6 & w'
          & _ & _ & _ & _ & _ & _ & _ & Hrun & _).
    eexists _, _. exact Hrun.
Qed.

(** X5.  A failure inside [getApkPath] does not stop the gathering.
    Once the five paths have been obtained, gathering returns whatever
    the lookup of the native path does: the vector is the five paths
    alone when that lookup throws or yields the empty string, and the
    five paths followed by the native one otherwise.  When obtaining
    the five paths throws, gathering throws the same exception. *)
Theorem checkApkPaths_paths_gathered (context : jobject) (w : W) :
  match apk_paths_five env context w with
  | Ret five w9 =>
      match native_lookup env context w9 with
      | Ret nativeApkPath _ =>
          exists w',
            checkApkPaths_paths env context w
            = Ret (collected_paths five nativeApkPath) w'
      | Throw _ _ =>
          exists w',
            checkApkPaths_paths env context w
            = Ret (collected_paths five "") w'
      end
  | Throw e w' => checkApkPaths_paths env context w = Throw e w'
  end.
Proof.
  unfold checkApkPaths_paths, apk_paths_five, getApkPath, getApkPath_try,
    native_lookup, collected_paths.
  unfold bind, try_catch. unfold_log.
  do 14 (step; [|reflexivity]).
  repeat step;
    cbn [seen_resourcePath seen_codePath seen_sourceDir seen_publicSourceDir
         seen_packageInfoSourceDir];
    try match goal with
        | |- context [(?n =? "")%string] => destruct (n =? "")%string
        end;
    eexists; reflexivity.
Qed.

Lemma checkApkPaths_stat_path_fs (path : string) (s : bool) (w : W) :
  fs (world_of (checkApkPaths_stat_path libc path s w))
  = chmod_trial libc (fs w) path.
Proof.
  unfold checkApkPaths_stat_path, chmod_trial.
  unfold bind, stat, chmod. unfold_log.
  destruct (libc_stat libc path (fs w)) as [st|errno]; [|reflexivity].
  cbv zeta.
  destruct (negb (Z.land (st_mode st) (octal 7 7 7) =? octal 6 4 4));
    destruct (negb (st_uid st =? 1000)); cbv beta iota; cbn [fs];
    destruct (libc_chmod libc path (octal 7 7 7) (fs w)) as [d|];
    cbv beta iota; cbn [Z.eqb fs];
    try (destruct (libc_chmod libc path (octal 6 4 4) d); cbv beta iota);
    reflexivity.
Qed.

Lemma checkApkPaths_stat_fs (paths : list string) (s : bool) (w : W) :
  fs (world_of (checkApkPaths_stat libc paths s w))
  = fold_left (chmod_trial libc) paths (fs w).
Proof.
  revert s w; induction paths as [|path rest IH]; intros s w;
    cbn [checkApkPaths_stat fold_left]; [reflexivity|].
  unfold bind.
  pose proof (checkApkPaths_stat_path_fs path s w) as Hone.
  destruct (checkApkPaths_stat_path_spec path s w) as (b & w1 & Hrun & _).
  rewrite Hrun in *. cbn [world_of] in Hone. rewrite IH, Hone. reflexivity.
Qed.

(** The checks entered with any flag: what they do to the file system,
    and that a raised flag stays raised. *)
Lemma checkApkPaths_checks_fs (paths : list string) (s : bool) (w : W) :
  exists b w',
    checkApkPaths_checks libc paths s w = Ret b w'
    /\ fs w' = fold_left (chmod_trial libc) paths (fs w)
    /\ (s = true -> b = true).
Proof.
  unfold checkApkPaths_checks, bind.
  destruct (checkApkPaths_same_spec (hd "" paths) (tl paths) true s w)
    as (a1 & s1 & w1 & -> & Hfs1 & Hs1).
  cbv beta iota. destruct a1; cbn [negb]; unfold_log;
    (match goal with
     | |- context [checkApkPaths_start ?p ?a ?s0 ?w0] =>
         destruct (checkApkPaths_start_spec p a s0 w0)
           as (a2 & s2 & w2 & -> & Hfs2 & Hs2)
     end);
    cbn [fs] in Hfs2; cbv beta iota; destruct a2; cbn [negb]; cbv beta iota;
    (match goal with
     | |- context [checkApkPaths_end ?p ?a ?s0 ?w0] =>
         destruct (checkApkPaths_end_spec p a s0 w0)
           as (a3 & s3 & w3 & -> & Hfs3 & Hs3)
     end);
    cbn [fs] in Hfs3; cbv beta iota; destruct a3; cbn [negb]; cbv beta iota;
    (match goal with
     | |- context [checkApkPaths_stat ?l ?p ?s0 ?w0] =>
         pose proof (checkApkPaths_stat_fs p s0 w0) as Hfold;
         destruct (checkApkPaths_stat_spec p s0 w0)
           as (b & w' & Hrun & Hb & _)
     end);
    rewrite Hrun in Hfold; cbn [world_of fs] in Hfold, Hb;
    exists b, w'; (split; [exact Hrun|]);
    (split; [congruence|]);
    intros Hs; apply Hb; left; apply Hs3; left; apply Hs2; left;
    apply Hs1; left; exact Hs.
Qed.

(** X6.  The whole effect of [checkApkPaths] on the file system: for
    each gathered path that can be stat-ed, in the order of the vector,
    a [chmod] to 0777 and, when that succeeded, a [chmod] to 0644 whose
    failure is ignored; nothing when gathering the paths throws. *)
Theorem checkApkPaths_file_system_effect (context : jobject) (w : W) :
  match checkApkPaths_paths env context w with
  | Ret paths _ =>
      fs (world_of (checkApkPaths env libc context w))
      = fold_left (chmod_trial libc) paths (fs w)
  | Throw _ _ => fs (world_of (checkApkPaths env libc context w)) = fs w
  end.
Proof.
  pose proof (fs_kept_checkApkPaths_paths context w) as Hfs.
  unfold checkApkPaths, checkApkPaths_try.
  unfold bind, try_catch.
  destruct (checkApkPaths_paths env context w) as [paths w1|e w1];
    cbn [world_of] in Hfs.
  - destruct (checkApkPaths_checks_fs paths false w1) as (b & w' & -> & Hb & _).
    unfold_log. cbn [fs]. congruence.
  - unfold_log. cbn [fs]. exact Hfs.
Qed.

Lemma checkApkPaths_false_keeps_fs (context : jobject) (w w' : W) :
  checkApkPaths env libc context w = Ret false w' -> fs w' = fs w.
Proof.
  intros Hfalse.
  pose proof (fs_kept_checkApkPaths_paths context w) as Hfs.
  unfold checkApkPaths, checkApkPaths_try, bind, try_catch in Hfalse.
  destruct (checkApkPaths_paths env context w) as [paths w1|e w1];
    cbn [world_of] in Hfs.
  - destruct (checkApkPaths_checks_spec paths w1) as (b & w2 & Hrun & Hb & Hkeep).
    rewrite Hrun in Hfalse. unfold_log.
    injection Hfalse as -> <-. cbn [fs]. rewrite <- Hfs. apply Hkeep.
    intros p Hin.
    destruct (libc_chmod libc p (octal 7 7 7) (fs w1)) eqn:Hchmod;
      [|reflexivity].
    assert (false = true); [|discriminate].
    apply Hb. do 5 right. exists p. split; [exact Hin|].
    rewrite Hchmod. discriminate.
  - unfold_log. discriminate.
Qed.

(** X7.  When [checkSignatureBypass] returns false it has left the file
    system as it found it. *)
Theorem checkSignatureBypass_clean_verdict (context : jobject) (w w' : W)
  (Hfalse : checkSignatureBypass env libc context w = Ret false w') :
  fs w' = fs w.
Proof.
  destruct (checkSignatureBypass_run context w)
    as (b1 & w1 & b2 & w2 & b3 & w3 & b4 & w4 & b5 & w5 & b6 & w6 & w7
        & _ & Hfs1 & Hfs2 & Hfs3 & Hfs4 & Hfs5 & H6 & Hrun & Hfs7).
  rewrite Hrun in Hfalse. injection Hfalse as Hor <-.
  assert (b6 = false) as ->.
  { destruct b6; [|reflexivity]. rewrite !orb_true_r in Hor. discriminate. }
  rewrite Hfs7, (checkApkPaths_false_keeps_fs context w5 w6 H6).
  congruence.
Qed.

(** X12.  Called while a managed exception is pending,
    [checkSignatureBypass] returns true: the first lookup of
    [checkCreator] throws on the stale exception and the probe fails
    closed. *)
Theorem checkSignatureBypass_stale_exception (context : jobject)
  (t : jthrowable) (w : W) (Hpending : pending w = Some t) :
  exists w', checkSignatureBypass env libc context w = Ret true w'.
Proof.
  destruct (checkSignatureBypass_run context w)
    as (b1 & w1 & b2 & w2 & b3 & w3 & b4 & w4 & b5 & w5 & b6 & w6 & w'
        & H1 & _ & _ & _ & _ & _ & _ & Hrun & _).
  assert (b1 = true) as ->.
  { revert H1. unfold checkCreator, checkCreator_try.
    unfold bind at 1. unfold_log. unfold bind at 1, try_catch, bind at 1.
    match goal with
    | |- context [GetStaticField env ?ty ?c ?n ?s ?w0] =>
        destruct (GetStaticField_throws_on_pending env ty c n s t w0 Hpending)
          as (e & w2' & ->)
    end.
    unfold bind. unfold_log. intros Heq. injection Heq as <- _. reflexivity. }
  exists w'. exact Hrun.
Qed.

End ProbeProofs.

(* ================================================================== *)
(** ** The code on the simulated device *)

Module OnDevice.
Import Device.

(** On the untampered installation every probe is quiet. *)
Example genuine_not_suspicious :
  result (checkSignatureBypass env libc context genuine) = Some false.
Proof. vm_compute. reflexivity. Qed.

(** With no class to be found every probe but [checkAppComponentFactory]
    reports. *)
Example broken_probes :
  map (fun p => result (probe env libc context p broken))
    [Creator; Field; Creators; PMProxy; AppComponentFactory; ApkPaths]
  = [Some true; Some true; Some true; Some true; Some false; Some true].
Proof. vm_compute. reflexivity. Qed.

(** Every string buffer obtained on the way has been released. *)
Example genuine_buffers_released :
  pinned (vm (world_of (checkSignatureBypass env libc context genuine))) = [].
Proof. vm_compute. reflexivity. Qed.


(** The entries of the device's table leave the metadata as it is. *)
Lemma member_metadata ty o name h :
  metadata (snd (member ty o name h)) = metadata h.
Proof.
  unfold member, spend.
  destruct (budget h) as [[|n]|]; cbn -[String.eqb]; try reflexivity;
    destruct (assoc member_eqb (o, name) (members h));
    try destruct (name =? "setAccessible")%string; reflexivity.
Qed.

Lemma static_member_metadata ty c name h :
  metadata (snd (static_member ty c name h)) = metadata h.
Proof.
  unfold static_member, spend.
  destruct (budget h) as [[|n]|]; cbn; try reflexivity;
    destruct (assoc member_eqb (c, name) (statics h)); reflexivity.
Qed.

Lemma answer_metadata {A} h (r : option A) d t :
  metadata (snd (answer h r d t)) = metadata h.
Proof. destruct r; reflexivity. Qed.

Lemma env_respects_metadata : Respected env same_metadata.
Proof.
  constructor; intros; unfold after_call, same_metadata;
    cbn [fst snd env env_FindClass env_GetObjectClass env_GetMethodID
         env_GetStaticMethodID env_GetFieldID env_GetStaticFieldID
         env_GetField env_GetStaticField env_CallMethod env_CallStaticMethod
         env_CallMethodA env_CallStaticMethodA env_NewObjectA env_NewStringUTF
         env_GetStringUTFChars env_ReleaseStringUTFChars env_DeleteLocalRef
         env_GetArrayLength env_GetObjectArrayElement];
    first [ reflexivity
          | symmetry; apply member_metadata
          | symmetry; apply static_member_metadata
          | symmetry; apply answer_metadata
          | destruct (assoc Z.eqb s (strings h)); reflexivity ].
Qed.


(** C3 as stated fails: on the runtime that runs out of memory after
    nine member calls the five paths are gathered, the lookup of the
    native path throws inside [getApkPath], and [checkApkPaths]
    returns false. *)
Lemma checkApkPaths_swallowed_exception :
  exists five w9 e w10 w',
    apk_paths_five env context (try_entry ApkPaths exhausting) = Ret five w9
    /\ getApkPath_try env context w9 = Throw e w10
    /\ checkApkPaths env libc context exhausting = Ret false w'.
Proof.
  eexists _, _, _, _, _. split; [|split]; vm_compute; reflexivity.
Qed.

(** C8 as stated fails of two probes.  With no class to be found the
    lookup inside [getApplication], called in the [try] block of
    [checkAppComponentFactory], throws, and the probe returns false.
    On the runtime that runs out of memory the lookup inside
    [getApkPath], called in the [try] block of [checkApkPaths], throws,
    and the probe returns false. *)
Lemma probes_swallowed_exceptions :
  (exists e w1 w',
      getApplication_try env (try_entry AppComponentFactory broken)
      = Throw e w1
      /\ checkAppComponentFactory env broken = Ret false w')
  /\ (exists five w9 e w10 w',
        apk_paths_five env context (try_entry ApkPaths exhausting)
        = Ret five w9
        /\ getApkPath_try env context w9 = Throw e w10
        /\ checkApkPaths env libc context exhausting = Ret false w').
Proof.
  split.
  - eexists _, _, _. split; vm_compute; reflexivity.
  - eexists _, _, _, _, _. split; [|split]; vm_compute; reflexivity.
Qed.

(** With no class to be found the [try] block of [checkCreator] throws,
    and the probe returns true. *)
Lemma probes_fail_closed_witness :
  exists w', checkCreator env broken = Ret true w'.
Proof.
  eapply (probes_fail_closed env libc context Creator broken).
  vm_compute. reflexivity.
Defined.

(** With no class to be found [getApplication] throws inside, returns
    null, and [checkAppComponentFactory] returns false. *)
Lemma checkAppComponentFactory_skips_witness :
  exists w', checkAppComponentFactory env broken = Ret false w'.
Proof.
  pose proof (checkAppComponentFactory_skips env broken) as Hskips.
  cbv zeta in Hskips. destruct Hskips as (Hnull & Hthrows & _).
  edestruct Hthrows as (w1 & Happ); [vm_compute; reflexivity|].
  eapply Hnull. exact Happ.
Defined.

(** On the untampered installation the verdict is false and the file
    system is as before. *)
Lemma checkSignatureBypass_clean_verdict_witness :
  exists w',
    checkSignatureBypass env libc context genuine = Ret false w'
    /\ fs w' = fs genuine.
Proof.
  eexists. split.
  - vm_compute. reflexivity.
  - eapply (checkSignatureBypass_clean_verdict env libc context genuine).
    vm_compute. reflexivity.
Defined.

(** With an exception pending, [FindClass] of a class that exists
    throws. *)
Lemma helpers_throw_on_pending_witness :
  exists e w', FindClass env "java/lang/ClassLoader" stale = Throw e w'.
Proof.
  apply (proj1 (helpers_throw_on_pending env 7 stale eq_refl)).
Defined.

(** With an exception pending on the untampered installation the
    verdict is true. *)
Lemma checkSignatureBypass_stale_exception_witness :
  exists w', checkSignatureBypass env libc context stale = Ret true w'.
Proof.
  apply (checkSignatureBypass_stale_exception env libc context 7 stale eq_refl).
Defined.

End OnDevice.
